(** * HuggingFace File Checker: the reconciliation engine of
      [tampermonkey/hf-file-checker.user.js]

    A shallow embedding of the userscript's matching algorithm, folder
    aggregator, manifest cache handling and rescan scheduler, followed by the
    properties the specification states about them.

    Conventions of the embedding.
    - A JavaScript value that may be [undefined]/[null] or a string is an
      [option string]; it is truthy exactly when it is a non-empty string.
    - The [state] object and the module variable [isScanning] are threaded
      explicitly; DOM rows are a store of elements addressed by position, and
      a row object's [element] field is a reference into that store.
    - An [async] function is cut at its [await]s on network calls: what runs
      between two of them is one function, what is pending is a [Susp].
    - Page-specific link parsing and icon tooltips are presentation and are
      not modelled: an element carries the file reference the extraction
      derives from it, an icon is its status class.
    - The [results] object of a batch response is a finite map on its own
      keys (hex digests and file names), its values records of booleans. *)

From Stdlib Require Import String Ascii List Bool Arith Lia.
From stdpp Require Import base option list gmap strings.
Import ListNotations.
Local Open Scope string_scope.

(** ** JavaScript string primitives (on ASCII) *)

Module Js.

Definition isUpper (c : ascii) : bool :=
  let n := nat_of_ascii c in ((65 <=? n) && (n <=? 90))%nat.

Definition lowerChar (c : ascii) : ascii :=
  if isUpper c then ascii_of_nat (nat_of_ascii c + 32) else c.

(** [String.prototype.toLowerCase] *)
Fixpoint toLowerCase (s : string) : string :=
  match s with
  | EmptyString => EmptyString
  | String c r => String (lowerChar c) (toLowerCase r)
  end.

(** white space removed by [trim]: TAB, LF, VT, FF, CR, SPACE *)
Definition isWhite (c : ascii) : bool :=
  let n := nat_of_ascii c in (((9 <=? n) && (n <=? 13)) || (n =? 32))%nat.

Fixpoint trimStart (s : string) : string :=
  match s with
  | EmptyString => EmptyString
  | String c r => if isWhite c then trimStart r else s
  end.

Definition trimEnd (s : string) : string :=
  String.rev (trimStart (String.rev s)).

(** [String.prototype.trim] *)
Definition trim (s : string) : string := trimEnd (trimStart s).

(** [s.startsWith(p)] *)
Definition startsWith (s p : string) : bool := String.prefix p s.

(** [s.endsWith(p)] *)
Definition endsWith (s p : string) : bool :=
  String.prefix (String.rev p) (String.rev s).

(** [s.split(sep)] for a one-character separator *)
Fixpoint split (sep : ascii) (s : string) : list string :=
  match s with
  | EmptyString => [EmptyString]
  | String c r =>
      if Ascii.eqb c sep then EmptyString :: split sep r
      else match split sep r with
           | h :: t => String c h :: t
           | [] => [String c EmptyString]
           end
  end.

Definition nonEmpty (s : string) : bool :=
  match s with EmptyString => false | String _ _ => true end.

(** truthiness of a value that is [undefined]/[null] or a string *)
Definition truthy (v : option string) : bool :=
  match v with Some s => nonEmpty s | None => false end.

(** [a || b] on such values *)
Definition or (a b : option string) : option string :=
  if truthy a then a else b.

(** [(v || '')] *)
Definition orEmpty (v : option string) : string :=
  match or v (Some EmptyString) with Some s => s | None => EmptyString end.

(** [a === b] on such values *)
Definition seq (a b : option string) : bool :=
  match a, b with
  | Some x, Some y => String.eqb x y
  | None, None => true
  | _, _ => false
  end.

End Js.

(** ** Data model *)

(** [CONFIG.icons] keys: the status an icon is drawn with *)
Inductive Verdict : Type :=
  | VMatch | VMismatch | VMissing | VPartial | VUnknown | VLoading.

(** one value of the [results] map of [/api/check/batch] *)
Record LookupResult : Type := {
  found : bool;
  mismatch : bool;
  directories : option (list string)
}.

(** one element of [repoData.files] *)
Record ManifestEntry : Type := {
  f_path : option string;
  f_filename : option string;
  f_sha256 : option string;
  f_status : string
}.

(** the payload of [/api/check/repo], cached in [state.repoData] *)
Record RepoData : Type := {
  repo_id : string;
  total_files : nat;
  rd_found : nat;
  rd_missing : nat;
  rd_mismatch : nat;
  files : option (list ManifestEntry)
}.

(** a row object built by [findAllFileRows]; [row_element] refers to the DOM
    element the icon is written to *)
Record FileRow : Type := {
  row_filename : string;
  row_fullPath : option string;
  row_sha256 : option string;
  row_element : nat
}.

(** a row object built by [findAllFolderRows] *)
Record FolderRow : Type := {
  folderName : string;
  folderPath : string;
  folder_element : nat
}.

(** one element of the body of [/api/check/batch] *)
Record FileReq : Type := {
  req_filename : string;
  req_fullPath : option string;
  req_sha256 : option string
}.

(** [state.stats] *)
Record Stats : Type := {
  matches : nat;
  mismatches : nat;
  missing : nat;
  total : nat
}.

Definition zeroStats : Stats :=
  {| matches := 0; mismatches := 0; missing := 0; total := 0 |}.

(** the result of [calculateFolderStatus] *)
Record FolderStats : Type := {
  fs_status : Verdict;
  fs_found : nat;
  fs_missing : nat;
  fs_mismatch : nat;
  fs_total : nat
}.

(** ** Matching algorithm: the per-row callback of [scanCurrentPage] *)

(** lines 901-912: the two keys and the entry they select *)
Definition filenameKey (row : FileRow) : string :=
  Js.toLowerCase (Js.trim (Js.orEmpty (Some (row_filename row)))).

Definition hashKey (row : FileRow) : string :=
  Js.toLowerCase (Js.orEmpty (row_sha256 row)).

Definition selectResult (results : gmap string LookupResult) (row : FileRow)
  : option LookupResult :=
  let filename := filenameKey row in
  let sha256 := hashKey row in
  let result := if Js.nonEmpty sha256 then results !! sha256 else None in
  match result with
  | Some r => Some r
  | None => results !! filename
  end.

(** lines 916-927: the status the icon is drawn with *)
Definition rowVerdict (results : gmap string LookupResult) (row : FileRow)
  : Verdict :=
  match selectResult results row with
  | Some result =>
      if found result then
        if mismatch result then VMismatch else VMatch
      else VMissing
  | None => VMissing
  end.

(** lines 919, 922, 926: the counter that goes with the icon *)
Definition countVerdict (v : Verdict) (st : Stats) : Stats :=
  match v with
  | VMismatch =>
      {| matches := matches st; mismatches := S (mismatches st);
         missing := missing st; total := total st |}
  | VMatch =>
      {| matches := S (matches st); mismatches := mismatches st;
         missing := missing st; total := total st |}
  | VMissing =>
      {| matches := matches st; mismatches := mismatches st;
         missing := S (missing st); total := total st |}
  | _ => st
  end.

(** ** Folder aggregator: [calculateFolderStatus] *)

(** the filter callback of line 607; [None] is the [TypeError] raised by
    [undefined.startsWith] when an entry has neither path nor filename *)
Definition inFolder (folderPath : string) (f : ManifestEntry) : option bool :=
  match Js.or (f_path f) (f_filename f) with
  | Some filePath =>
      Some (Js.startsWith filePath (folderPath ++ "/")
            || String.eqb filePath folderPath)
  | None => None
  end.

(** [allFiles.filter(...)] with a callback that may throw *)
Fixpoint filterInFolder (folderPath : string) (allFiles : list ManifestEntry)
  : option (list ManifestEntry) :=
  match allFiles with
  | [] => Some []
  | f :: rest =>
      match inFolder folderPath f with
      | None => None
      | Some b =>
          match filterInFolder folderPath rest with
          | None => None
          | Some sel => Some (if b then f :: sel else sel)
          end
      end
  end.

Definition hasStatus (st : string) (f : ManifestEntry) : bool :=
  String.eqb (f_status f) st.

Definition countStatus (st : string) (l : list ManifestEntry) : nat :=
  length (List.filter (hasStatus st) l).

Definition calculateFolderStatus (folderPath : string)
  (allFiles : list ManifestEntry) : option FolderStats :=
  match filterInFolder folderPath allFiles with
  | None => None
  | Some filesInFolder =>
      if (length filesInFolder =? 0)%nat then
        Some {| fs_status := VUnknown; fs_found := 0; fs_missing := 0;
                fs_mismatch := 0; fs_total := 0 |}
      else
        let found := countStatus "found" filesInFolder in
        let missing := countStatus "missing" filesInFolder in
        let mismatch := countStatus "mismatch" filesInFolder in
        let total := length filesInFolder in
        let status :=
          if (found =? total)%nat then VMatch
          else if (missing =? total)%nat then VMissing
          else if ((0 <? found) || (0 <? mismatch))%nat then VPartial
          else VMissing in
        Some {| fs_status := status; fs_found := found; fs_missing := missing;
                fs_mismatch := mismatch; fs_total := total |}
  end.

(** ** Hash enrichment: the [rows.map] callback of lines 863-886 *)

(** the predicate of [state.repoData.files.find] *)
Definition repoFileMatches (r : FileRow) (f : ManifestEntry) : bool :=
  Js.seq (f_path f) (row_fullPath r)
  || Js.seq (f_path f) (Some (row_filename r))
  || Js.seq (f_filename f) (Some (row_filename r))
  || match f_path f with
     | Some p => Js.nonEmpty p && Js.endsWith p ("/" ++ row_filename r)
     | None => false
     end.

Definition setSha256 (r : FileRow) (h : option string) : FileRow :=
  {| row_filename := row_filename r; row_fullPath := row_fullPath r;
     row_sha256 := h; row_element := row_element r |}.

Definition mkReq (r : FileRow) (sha256 : option string) : FileReq :=
  {| req_filename := row_filename r; req_fullPath := row_fullPath r;
     req_sha256 := sha256 |}.

(** The callback returns the request element and writes [r.sha256]; the row
    after the call is the first component. *)
Definition enrichRow (repoData : option RepoData) (r : FileRow)
  : FileRow * FileReq :=
  let sha256 := row_sha256 r in
  if Js.truthy sha256 then (r, mkReq r sha256)
  else
    match repoData with
    | Some rd =>
        match files rd with
        | Some fl =>
            match List.find (repoFileMatches r) fl with
            | Some repoFile =>
                if Js.truthy (f_sha256 repoFile)
                then (setSha256 r (f_sha256 repoFile),
                      mkReq r (f_sha256 repoFile))
                else (r, mkReq r sha256)
            | None => (r, mkReq r sha256)
            end
        | None => (r, mkReq r sha256)
        end
    | None => (r, mkReq r sha256)
    end.

(** ** The page, the session state and the server *)

Inductive Link : Type :=
  | BlobLink (filename : string) (fullPath : option string)
  | TreeLink (name : string) (path : string).

(** a row container of the document, with its two [dataset] flags and the
    [.hfc-icon] it holds *)
Record Elem : Type := {
  el_link : Link;
  hfcProcessed : bool;
  hfcFolderProcessed : bool;
  el_icon : option Verdict
}.

Record ServerInfo : Type := { cache_total_files : nat }.

(** the [state] object *)
Record State : Type := {
  connected : bool;
  serverInfo : option ServerInfo;
  repoData : option RepoData;
  lastUrl : option string;
  stats : Stats
}.

Record Location : Type := { href : string; pathname : string }.

(** everything a pass reads and writes *)
Record Sys : Type := {
  state : State;
  isScanning : bool;
  page : list Elem;
  location : Location
}.

Definition withState (s : Sys) (st : State) : Sys :=
  {| state := st; isScanning := isScanning s; page := page s;
     location := location s |}.

Definition withPage (s : Sys) (pg : list Elem) : Sys :=
  {| state := state s; isScanning := isScanning s; page := pg;
     location := location s |}.

Definition withScanning (s : Sys) (b : bool) : Sys :=
  {| state := state s; isScanning := b; page := page s;
     location := location s |}.

Definition setStats (st : State) (x : Stats) : State :=
  {| connected := connected st; serverInfo := serverInfo st;
     repoData := repoData st; lastUrl := lastUrl st; stats := x |}.

Definition setRepoData (st : State) (d : option RepoData) : State :=
  {| connected := connected st; serverInfo := serverInfo st;
     repoData := d; lastUrl := lastUrl st; stats := stats st |}.

Definition setLastUrl (st : State) (u : option string) : State :=
  {| connected := connected st; serverInfo := serverInfo st;
     repoData := repoData st; lastUrl := u; stats := stats st |}.

Definition setConnection (st : State) (c : bool) (i : option ServerInfo)
  : State :=
  {| connected := c; serverInfo := i; repoData := repoData st;
     lastUrl := lastUrl st; stats := stats st |}.

Definition setTotal (x : Stats) (n : nat) : Stats :=
  {| matches := matches x; mismatches := mismatches x;
     missing := missing x; total := n |}.

(** how a promise of [apiRequest] settles *)
Inductive ApiOutcome (A : Type) : Type :=
  | Resolved (a : A)
  | Rejected.
Arguments Resolved {A} a.
Arguments Rejected {A}.

Record BatchResponse : Type := {
  results : option (gmap string LookupResult)
}.

Record RepoRequest : Type := {
  rq_repo_id : string;
  rq_repo_type : string;
  rq_revision : string
}.

(** the local inventory service, as the answers it gives *)
Record Server : Type := {
  api_status : ApiOutcome ServerInfo;
  api_check_repo : RepoRequest -> ApiOutcome RepoData;
  api_check_batch : list FileReq -> ApiOutcome BatchResponse
}.

(** ** Repo context resolver: [getRepoInfoFromUrl] *)

Record RepoInfo : Type := {
  repoId : string;
  repoType : string;
  revision : string
}.

Fixpoint indexOf (x : string) (l : list string) : option nat :=
  match l with
  | [] => None
  | y :: r => if String.eqb y x then Some 0
              else match indexOf x r with
                   | Some i => Some (S i)
                   | None => None
                   end
  end.

Definition getRepoInfoFromUrl (loc : Location) : option RepoInfo :=
  let parts := List.filter Js.nonEmpty (Js.split "/" (pathname loc)) in
  let '(repoType, startIdx) :=
    if Js.seq (parts !! 0) (Some "datasets") then ("dataset", 1)
    else if Js.seq (parts !! 0) (Some "spaces") then ("space", 1)
    else ("model", 0) in
  if (length parts <? startIdx + 2)%nat then None
  else
    match parts !! startIdx, parts !! (startIdx + 1) with
    | Some owner, Some repo =>
        let revision :=
          match indexOf "tree" parts with
          | Some treeIdx =>
              if Js.truthy (parts !! (treeIdx + 1))
              then Js.orEmpty (parts !! (treeIdx + 1))
              else "main"
          | None => "main"
          end in
        Some {| repoId := owner ++ "/" ++ repo; repoType := repoType;
                revision := revision |}
    | _, _ => None
    end.

Definition repoRequest (i : RepoInfo) : RepoRequest :=
  {| rq_repo_id := repoId i; rq_repo_type := repoType i;
     rq_revision := revision i |}.

(** ** DOM operations *)

Definition setIcon (v : option Verdict) (e : Elem) : Elem :=
  {| el_link := el_link e; hfcProcessed := hfcProcessed e;
     hfcFolderProcessed := hfcFolderProcessed e; el_icon := v |}.

Definition setProcessed (b : bool) (e : Elem) : Elem :=
  {| el_link := el_link e; hfcProcessed := b;
     hfcFolderProcessed := hfcFolderProcessed e; el_icon := el_icon e |}.

Definition setFolderProcessed (b : bool) (e : Elem) : Elem :=
  {| el_link := el_link e; hfcProcessed := hfcProcessed e;
     hfcFolderProcessed := b; el_icon := el_icon e |}.

(** [updateFileIcon(row, status, title, link)]: the icons of the row are
    removed and one with the given status is inserted *)
Definition updateFileIcon (pg : list Elem) (element : nat) (status : Verdict)
  : list Elem :=
  alter (setIcon (Some status)) element pg.

(** lines 791-799 *)
Definition clearIconsAndFlags (pg : list Elem) : list Elem :=
  map (fun e => setFolderProcessed false (setProcessed false (setIcon None e)))
      pg.

(** [findAllFileRows]: a row object per blob link whose container is not yet
    flagged, in document order; [i] is the position of the first element *)
Fixpoint fileRowsFrom (i : nat) (pg : list Elem) : list FileRow :=
  match pg with
  | [] => []
  | e :: rest =>
      match el_link e with
      | BlobLink filename fullPath =>
          if hfcProcessed e then fileRowsFrom (S i) rest
          else {| row_filename := filename; row_fullPath := fullPath;
                  row_sha256 := None; row_element := i |}
               :: fileRowsFrom (S i) rest
      | TreeLink _ _ => fileRowsFrom (S i) rest
      end
  end.

Definition flagFileRow (e : Elem) : Elem :=
  match el_link e with
  | BlobLink _ _ => setProcessed true e
  | TreeLink _ _ => e
  end.

Definition findAllFileRows (pg : list Elem) : list FileRow * list Elem :=
  (fileRowsFrom 0 pg, map flagFileRow pg).

(** [findAllFolderRows] *)
Fixpoint folderRowsFrom (i : nat) (pg : list Elem) : list FolderRow :=
  match pg with
  | [] => []
  | e :: rest =>
      match el_link e with
      | TreeLink name path =>
          if hfcFolderProcessed e then folderRowsFrom (S i) rest
          else {| folderName := name; folderPath := path;
                  folder_element := i |}
               :: folderRowsFrom (S i) rest
      | BlobLink _ _ => folderRowsFrom (S i) rest
      end
  end.

Definition flagFolderRow (e : Elem) : Elem :=
  match el_link e with
  | TreeLink _ _ => setFolderProcessed true e
  | BlobLink _ _ => e
  end.

Definition findAllFolderRows (pg : list Elem) : list FolderRow * list Elem :=
  (folderRowsFrom 0 pg, map flagFolderRow pg).

(** ** One pass: [scanCurrentPage], cut at its [await]s *)

Inductive Completion : Type := Returned | Threw.

(** what a suspended pass is waiting for, with the locals it resumes with *)
Inductive Susp : Type :=
  | AwaitStatus
  | AwaitRepo (rows : list FileRow) (folders : list FolderRow)
              (req : RepoRequest)
  | AwaitBatch (rows : list FileRow) (files : list FileReq).

Inductive Outcome : Type :=
  | Suspend (k : Susp) (s : Sys)
  | Finish (c : Completion) (s : Sys).

(** the [finally] block of line 934 *)
Definition finally (c : Completion) (s : Sys) : Outcome :=
  Finish c (withScanning s false).

(** lines 784-799, up to the call of [checkServerStatus] *)
Definition scan_begin (s : Sys) : Sys :=
  let s := withScanning s true in
  let s := withState s (setStats (state s) zeroStats) in
  withPage s (clearIconsAndFlags (page s)).

(** [checkServerStatus] once its request has settled *)
Definition checkServerStatus (o : ApiOutcome ServerInfo) (st : State)
  : State :=
  match o with
  | Resolved status => setConnection st true (Some status)
  | Rejected => setConnection st false None
  end.

(** lines 895-897 *)
Definition markUnknown (rows : list FileRow) (pg : list Elem) : list Elem :=
  fold_left (fun pg row => updateFileIcon pg (row_element row) VUnknown)
            rows pg.

(** lines 900-928: one iteration *)
Definition matchRow (results : gmap string LookupResult) (s : Sys)
  (row : FileRow) : Sys :=
  let v := rowVerdict results row in
  let s := withPage s (updateFileIcon (page s) (row_element row) v) in
  withState s (setStats (state s) (countVerdict v (stats (state s)))).

(** lines 894-933, entered with the value [checkFiles] returned *)
Definition finishFiles (results : option (gmap string LookupResult))
  (rows : list FileRow) (s : Sys) : Outcome :=
  match results with
  | None => finally Returned (withPage s (markUnknown rows (page s)))
  | Some res => finally Returned (fold_left (matchRow res) rows s)
  end.

(** [checkFiles] once its request has settled (lines 495-500) *)
Definition checkFilesResult (o : ApiOutcome BatchResponse)
  : option (gmap string LookupResult) :=
  match o with
  | Resolved response => results response
  | Rejected => None
  end.

Definition after_batch (o : ApiOutcome BatchResponse) (rows : list FileRow)
  (s : Sys) : Outcome :=
  finishFiles (checkFilesResult o) rows s.

(** lines 859-890: the batch request is prepared and sent *)
Definition checkRows (rows : list FileRow) (s : Sys) : Outcome :=
  if (0 <? length rows)%nat then
    let s := withState s (setStats (state s)
                            (setTotal (stats (state s)) (length rows))) in
    let enriched := map (enrichRow (repoData (state s))) rows in
    let rows := map fst enriched in
    let files := map snd enriched in
    if connected (state s) then Suspend (AwaitBatch rows files) s
    else finishFiles None rows s
  else finally Returned s.

(** lines 846-850; a [TypeError] of [calculateFolderStatus] leaves the loop *)
Fixpoint classifyFolders (allFiles : list ManifestEntry)
  (folders : list FolderRow) (pg : list Elem) : Completion * list Elem :=
  match folders with
  | [] => (Returned, pg)
  | folder :: rest =>
      match calculateFolderStatus (folderPath folder) allFiles with
      | None => (Threw, pg)
      | Some folderStats =>
          classifyFolders allFiles rest
            (updateFileIcon pg (folder_element folder) (fs_status folderStats))
      end
  end.

(** lines 853-855 *)
Definition foldersUnknown (folders : list FolderRow) (pg : list Elem)
  : list Elem :=
  fold_left (fun pg folder => updateFileIcon pg (folder_element folder) VUnknown)
            folders pg.

Definition repoFiles (st : State) : option (list ManifestEntry) :=
  match repoData st with
  | Some rd => files rd
  | None => None
  end.

(** lines 844-856, then the files *)
Definition updateFolders (rows : list FileRow) (folders : list FolderRow)
  (s : Sys) : Outcome :=
  match repoFiles (state s) with
  | Some allFiles =>
      match classifyFolders allFiles folders (page s) with
      | (Returned, pg) => checkRows rows (withPage s pg)
      | (Threw, pg) => finally Threw (withPage s pg)
      end
  | None => checkRows rows (withPage s (foldersUnknown folders (page s)))
  end.

(** lines 832-840, once the request has settled *)
Definition after_repo (o : ApiOutcome RepoData) (rows : list FileRow)
  (folders : list FolderRow) (s : Sys) : Outcome :=
  let s := match o with
           | Resolved d => withState s (setRepoData (state s) (Some d))
           | Rejected => s
           end in
  updateFolders rows folders s.

Definition markLoading (els : list nat) (pg : list Elem) : list Elem :=
  fold_left (fun pg el => updateFileIcon pg el VLoading) els pg.

(** lines 802-842 *)
Definition after_status (o : ApiOutcome ServerInfo) (s : Sys) : Outcome :=
  let s := withState s (checkServerStatus o (state s)) in
  if negb (connected (state s)) then finally Returned s
  else
    let '(rows, pg) := findAllFileRows (page s) in
    let '(folders, pg) := findAllFolderRows pg in
    let pg := markLoading (map row_element rows) pg in
    let pg := markLoading (map folder_element folders) pg in
    let s := withPage s pg in
    if (0 <? length folders)%nat && negb (bool_decide (is_Some (repoData (state s))))
    then
      match getRepoInfoFromUrl (location s) with
      | Some repoInfo => Suspend (AwaitRepo rows folders (repoRequest repoInfo)) s
      | None => updateFolders rows folders s
      end
    else updateFolders rows folders s.

(** a pending request is answered and the pass runs to its next [await] *)
Definition resume (srv : Server) (k : Susp) (s : Sys) : Outcome :=
  match k with
  | AwaitStatus => after_status (api_status srv) s
  | AwaitRepo rows folders req => after_repo (api_check_repo srv req) rows folders s
  | AwaitBatch rows files => after_batch (api_check_batch srv files) rows s
  end.

Fixpoint drive (fuel : nat) (srv : Server) (o : Outcome) : Outcome :=
  match fuel, o with
  | S n, Suspend k s => drive n srv (resume srv k s)
  | _, _ => o
  end.

(** the call itself: the guard of lines 780-783, then the synchronous start *)
Definition scan_call (s : Sys) : Outcome :=
  if isScanning s then Finish Returned s
  else Suspend AwaitStatus (scan_begin s).

(** [scanCurrentPage()] against a server that answers every request, on a
    page that does not change meanwhile *)
Definition scanCurrentPage (srv : Server) (s : Sys) : Outcome :=
  drive 3 srv (scan_call s).

(** ** Manifest cache refresh: [autoFetchRepoData] *)

Definition sameRepo (d : option RepoData) (i : RepoInfo) : bool :=
  match d with
  | Some rd => String.eqb (repo_id rd) (repoId i)
  | None => false
  end.

Definition autoFetchRepoData (srv : Server) (s : Sys) : Sys :=
  if negb (connected (state s)) then s
  else
    match getRepoInfoFromUrl (location s) with
    | None => s
    | Some repoInfo =>
        if sameRepo (repoData (state s)) repoInfo then s
        else
          match api_check_repo srv (repoRequest repoInfo) with
          | Resolved result =>
              let st := setRepoData (state s) (Some result) in
              withState s
                (setStats st {| matches := rd_found result;
                                mismatches := rd_mismatch result;
                                missing := rd_missing result;
                                total := total_files result |})
          | Rejected => s
          end
    end.

(** ** The debounced callback of the mutation observer (lines 1290-1310) *)

(** lines 1292-1301: navigation detection and cache invalidation *)
Definition tickNavigation (srv : Server) (s : Sys) : Sys :=
  let currentUrl := href (location s) in
  if Js.seq (Some currentUrl) (lastUrl (state s)) then s
  else
    let s := withState s (setLastUrl (state s) (Some currentUrl)) in
    match getRepoInfoFromUrl (location s), repoData (state s) with
    | Some repoInfo, Some rd =>
        if negb (String.eqb (repo_id rd) (repoId repoInfo)) then
          autoFetchRepoData srv (withState s (setRepoData (state s) None))
        else s
    | _, _ => s
    end.

(** [r.element.querySelector('.hfc-icon')] is null *)
Definition hasNoIcon (pg : list Elem) (r : FileRow) : bool :=
  match pg !! row_element r with
  | Some e => negb (bool_decide (is_Some (el_icon e)))
  | None => true
  end.

(** The callback up to its last statement: whether [scanCurrentPage()] is
    called, and the system at that point. *)
Definition mutationTick (srv : Server) (s : Sys) : bool * Sys :=
  if connected (state s) && negb (isScanning s) then
    let s := tickNavigation srv s in
    let '(rows, pg) := findAllFileRows (page s) in
    let s := withPage s pg in
    let unprocessed := List.filter (hasNoIcon (page s)) rows in
    ((0 <? length unprocessed)%nat, s)
  else (false, s).

Definition mutationPass (srv : Server) (s : Sys) : Outcome :=
  let '(go, s) := mutationTick srv s in
  if go then scanCurrentPage srv s else Finish Returned s.

(** ** The scheduler as a machine: passes interleaved with other work *)

Record Machine : Type := {
  sys : Sys;
  inflight : list Susp   (* the passes suspended at an [await] *)
}.

Inductive Event : Type :=
  | Trigger                      (* [scanCurrentPage()] is called *)
  | Answer (i : nat) (srv : Server)
                                 (* the request of pass [i] settles *)
  | Environment (st : State) (pg : list Elem) (loc : Location).
                                 (* other handlers and the site write the
                                    state, the document and the location *)

Definition step (m : Machine) (ev : Event) : Machine :=
  match ev with
  | Trigger =>
      match scan_call (sys m) with
      | Suspend k s => {| sys := s; inflight := k :: inflight m |}
      | Finish _ s => {| sys := s; inflight := inflight m |}
      end
  | Answer i srv =>
      match inflight m !! i with
      | Some k =>
          match resume srv k (sys m) with
          | Suspend k' s => {| sys := s; inflight := <[i := k']> (inflight m) |}
          | Finish _ s => {| sys := s; inflight := delete i (inflight m) |}
          end
      | None => m
      end
  | Environment st pg loc =>
      {| sys := {| state := st; isScanning := isScanning (sys m);
                   page := pg; location := loc |};
         inflight := inflight m |}
  end.

Definition run (evs : list Event) (m : Machine) : Machine :=
  fold_left step evs m.

Definition idle (st : State) (pg : list Elem) (loc : Location) : Machine :=
  {| sys := {| state := st; isScanning := false; page := pg;
               location := loc |};
     inflight := [] |}.

(** ** Predicates used in the statements *)

(** a manifest entry as the data model has it: a path, and one of the three
    statuses *)
Definition wellFormedEntry (f : ManifestEntry) : Prop :=
  Js.truthy (f_path f) = true /\
  (f_status f = "found" \/ f_status f = "missing" \/ f_status f = "mismatch").

(** the selection the aggregator is specified with *)
Definition underFolder (folderPath : string) (f : ManifestEntry) : bool :=
  match f_path f with
  | Some p => String.eqb p folderPath || Js.startsWith p (folderPath ++ "/")
  | None => false
  end.

Definition allStatus (st : string) (l : list ManifestEntry) : Prop :=
  Forall (fun f => f_status f = st) l.

Definition iconAt (pg : list Elem) (i : nat) : option Verdict :=
  match pg !! i with
  | Some e => el_icon e
  | None => None
  end.

Definition isBlob (e : Elem) : bool :=
  match el_link e with BlobLink _ _ => true | TreeLink _ _ => false end.

(** the filename key in the words of the specification: the filename,
    trimmed and lower-cased *)
Definition nameKey (row : FileRow) : string :=
  Js.toLowerCase (Js.trim (row_filename row)).

(** the folder's entries in the words of the specification *)
Definition selected (folderPath : string) (allFiles : list ManifestEntry)
  : list ManifestEntry :=
  List.filter (underFolder folderPath) allFiles.

(** the verdict mapping in the words of the specification *)
Definition specVerdict (entry : option LookupResult) : Verdict :=
  match entry with
  | Some {| found := true; mismatch := false |} => VMatch
  | Some {| found := true; mismatch := true |} => VMismatch
  | _ => VMissing
  end.

(** repeated enrichment of one reference, against a manifest per attempt *)
Definition enrichRepeatedly (rds : list (option RepoData)) (r : FileRow)
  : FileRow :=
  fold_left (fun r rd => fst (enrichRow rd r)) rds r.

(** how many answers a pending pass may still need *)
Definition rank (k : Susp) : nat :=
  match k with
  | AwaitStatus => 3
  | AwaitRepo _ _ _ => 2
  | AwaitBatch _ _ => 1
  end.

Definition pending (o : Outcome) : nat :=
  match o with
  | Suspend k _ => rank k
  | Finish _ _ => 0
  end.

Definition finished (o : Outcome) : bool :=
  match o with
  | Suspend _ _ => false
  | Finish _ _ => true
  end.

(** a finished outcome has the flag cleared, a suspended one has it as it
    was on entry *)
Definition flagRule (b : bool) (o : Outcome) : Prop :=
  match o with
  | Suspend _ s' => isScanning s' = b
  | Finish _ s' => isScanning s' = false
  end.

(** the scheduler's invariant: the flag is set exactly while one pass is
    suspended, and no other pass is *)
Definition oneInFlight (m : Machine) : Prop :=
  length (inflight m) = if isScanning (sys m) then 1 else 0.

(** the machine after some events, from a page on which nothing runs *)
Definition reached (evs : list Event) (st : State) (pg : list Elem)
  (loc : Location) : Machine :=
  run evs (idle st pg loc).

(** every blob link of the page has a row object among [rows] *)
Definition covers (rows : list FileRow) (pg : list Elem) : Prop :=
  forall i e, pg !! i = Some e -> isBlob e = true ->
              exists r, In r rows /\ row_element r = i.

(** every file reference of the page shows the given verdict *)
Definition allFilesShow (v : option Verdict) (pg : list Elem) : Prop :=
  forall i e, pg !! i = Some e -> isBlob e = true -> el_icon e = v.

Definition noCounts (x : Stats) : Prop :=
  matches x = 0 /\ mismatches x = 0 /\ missing x = 0.

(** the batch lookup of this server gives no data, whatever is asked *)
Definition batchFails (srv : Server) : Prop :=
  forall files, checkFilesResult (api_check_batch srv files) = None.

(** what holds along a pass whose batch lookup fails *)
Definition degraded (o : Outcome) : Prop :=
  match o with
  | Suspend AwaitStatus s =>
      covers (fileRowsFrom 0 (page s)) (page s) /\ noCounts (stats (state s))
  | Suspend (AwaitRepo rows _ _) s =>
      covers rows (page s) /\ noCounts (stats (state s))
  | Suspend (AwaitBatch rows _) s =>
      covers rows (page s) /\ noCounts (stats (state s))
  | Finish Returned s =>
      connected (state s) = true ->
      allFilesShow (Some VUnknown) (page s) /\ noCounts (stats (state s))
  | Finish Threw _ => True
  end.

(** ** Sample data for the instances below *)

Definition entryHave : LookupResult :=
  {| found := true; mismatch := false; directories := Some ["checkpoints"] |}.
Definition entryDiffers : LookupResult :=
  {| found := true; mismatch := true; directories := Some ["loras"] |}.

Definition sampleResults : gmap string LookupResult :=
  <["ab12" := entryHave]> (<["model.bin" := entryDiffers]> ∅).

Definition sampleRow : FileRow :=
  {| row_filename := " Model.BIN"; row_fullPath := Some "unet/Model.BIN";
     row_sha256 := Some "AB12"; row_element := 0 |}.

Definition sampleRowNoHash : FileRow :=
  {| row_filename := " Model.BIN"; row_fullPath := Some "unet/Model.BIN";
     row_sha256 := None; row_element := 0 |}.

Definition entryAt (p : string) (st : string) : ManifestEntry :=
  {| f_path := Some p; f_filename := Some "weights.bin";
     f_sha256 := None; f_status := st |}.

Definition sampleManifest : list ManifestEntry :=
  [ entryAt "unet/a.bin" "found"; entryAt "unet/b.bin" "missing";
    entryAt "vae/c.bin" "found"; entryAt "unet" "mismatch";
    entryAt "unet2/d.bin" "missing" ].

Definition sampleRepo (id : string) (fl : list ManifestEntry) : RepoData :=
  {| repo_id := id; total_files := length fl;
     rd_found := countStatus "found" fl;
     rd_missing := countStatus "missing" fl;
     rd_mismatch := countStatus "mismatch" fl;
     files := Some fl |}.

Definition hashedEntry (p h : string) : ManifestEntry :=
  {| f_path := Some p; f_filename := Some "Model.BIN";
     f_sha256 := Some h; f_status := "found" |}.

Definition serverDown : Server :=
  {| api_status := Rejected;
     api_check_repo := fun _ => Rejected;
     api_check_batch := fun _ => Rejected |}.

(** a server that is up, has no manifest to give, and answers the batch
    lookup with [sampleResults] *)
Definition serverUp : Server :=
  {| api_status := Resolved {| cache_total_files := 10 |};
     api_check_repo := fun _ => Rejected;
     api_check_batch := fun _ => Resolved {| results := Some sampleResults |} |}.

(** a server that is up but whose batch lookup fails *)
Definition serverNoBatch : Server :=
  {| api_status := Resolved {| cache_total_files := 10 |};
     api_check_repo := fun _ => Rejected;
     api_check_batch := fun _ => Rejected |}.

Definition blobElem (name path : string) (flag : bool)
  (icon : option Verdict) : Elem :=
  {| el_link := BlobLink name (Some path); hfcProcessed := flag;
     hfcFolderProcessed := false; el_icon := icon |}.

Definition treeElem (name path : string) : Elem :=
  {| el_link := TreeLink name path; hfcProcessed := false;
     hfcFolderProcessed := false; el_icon := None |}.

Definition sampleState (c : bool) (rd : option RepoData) (url : option string)
  : State :=
  {| connected := c; serverInfo := None; repoData := rd; lastUrl := url;
     stats := {| matches := 1; mismatches := 0; missing := 0; total := 1 |} |}.

Definition repoBLocation : Location :=
  {| href := "https://huggingface.co/ownerB/repoB/tree/main";
     pathname := "/ownerB/repoB/tree/main" |}.

(** one annotated row and one row that has just been loaded *)
Definition samplePage : list Elem :=
  [ blobElem "model.bin" "unet/model.bin" true (Some VMatch);
    blobElem "new.bin" "unet/new.bin" false None ].

Definition sampleSys : Sys :=
  {| state := sampleState true None (Some (href repoBLocation));
     isScanning := false; page := samplePage; location := repoBLocation |}.

(** a cached manifest with an entry that has neither path nor filename, and
    a folder row on the page *)
Definition brokenManifestSys : Sys :=
  {| state := sampleState true
                (Some (sampleRepo "ownerB/repoB"
                         [{| f_path := None; f_filename := None;
                             f_sha256 := None; f_status := "found" |}]))
                None;
     isScanning := false;
     page := [treeElem "unet" "unet"; blobElem "a.bin" "a.bin" false None];
     location := repoBLocation |}.

(** the manifest cached while the page showed [ownerA/repoA] *)
Definition repoAData : RepoData :=
  sampleRepo "ownerA/repoA" [entryAt "unet/a.bin" "found"].

(** what the service knows about [ownerB/repoB] *)
Definition repoBData : RepoData :=
  sampleRepo "ownerB/repoB" [entryAt "unet/b.bin" "missing"].

Definition serverRepoB : Server :=
  {| api_status := Resolved {| cache_total_files := 10 |};
     api_check_repo := fun _ => Resolved repoBData;
     api_check_batch := fun _ => Resolved {| results := Some sampleResults |} |}.

(** the location has moved on to [ownerB/repoB], whose tree shows a folder
    [unet]; the cache still holds the manifest of [ownerA/repoA] *)
Definition staleSys : Sys :=
  {| state := sampleState true (Some repoAData) None;
     isScanning := false;
     page := [treeElem "unet" "unet"];
     location := repoBLocation |}.

(** a page with one file row; the cached manifest knows the hash of the
    file, and the service has that hash, and a different file under the
    same name *)
Definition enrichedSys : Sys :=
  {| state := sampleState true
                (Some (sampleRepo "ownerB/repoB"
                         [hashedEntry "unet/Model.BIN" "AB12"]))
                None;
     isScanning := false;
     page := [blobElem " Model.BIN" "unet/Model.BIN" false None];
     location := repoBLocation |}.

(** * The rest of the script *)

(** ** Folder aggregation on any manifest *)

(** [f.path || f.filename] *)
Definition effectivePath (f : ManifestEntry) : option string :=
  Js.or (f_path f) (f_filename f).

(** the entries the filter of [calculateFolderStatus] keeps when it does not
    raise *)
Definition keptInFolder (folderPath : string) (f : ManifestEntry) : bool :=
  match inFolder folderPath f with
  | Some b => b
  | None => false
  end.

Definition filesInFolder (folderPath : string) (allFiles : list ManifestEntry)
  : list ManifestEntry :=
  List.filter (keptInFolder folderPath) allFiles.

Definition presentLocally (f : ManifestEntry) : Prop :=
  f_status f = "found" \/ f_status f = "mismatch".

(** a manifest with a status outside the data model and an entry that has
    only a filename *)
Definition oddManifest : list ManifestEntry :=
  [ entryAt "d/a" "error";
    {| f_path := None; f_filename := Some "d/b"; f_sha256 := None;
       f_status := "missing" |};
    entryAt "e/c" "found" ].

(** two files of one name in different folders: the manifest lists the one
    under [vae] first, without a hash *)
Definition twinManifest : list ManifestEntry :=
  [ {| f_path := Some "vae/Model.BIN"; f_filename := Some "Model.BIN";
       f_sha256 := None; f_status := "missing" |};
    hashedEntry "unet/Model.BIN" "ab12" ].

Definition twinRow : FileRow :=
  {| row_filename := "Model.BIN"; row_fullPath := Some "unet/Model.BIN";
     row_sha256 := None; row_element := 0 |}.


(** ** [escapeHtml] *)

(** [s.replace(/c/g, rep)] for a pattern that is one character *)
Fixpoint replaceAll (c : ascii) (rep : string) (s : string) : string :=
  match s with
  | EmptyString => EmptyString
  | String x r =>
      if Ascii.eqb x c then rep ++ replaceAll c rep r
      else String x (replaceAll c rep r)
  end.

(** the double quote character *)
Definition dquote : ascii := ascii_of_nat 34.

(** lines 1035-1043, on a value that is a string or absent *)
Definition escapeHtml (str : option string) : string :=
  if negb (Js.truthy str) then EmptyString
  else
    replaceAll "'" "&#39;"
      (replaceAll dquote "&quot;"
         (replaceAll ">" "&gt;"
            (replaceAll "<" "&lt;"
               (replaceAll "&" "&amp;" (Js.orEmpty str))))).

(** what one character becomes *)
Definition escapeChar (c : ascii) : string :=
  if Ascii.eqb c "&" then "&amp;"
  else if Ascii.eqb c "<" then "&lt;"
  else if Ascii.eqb c ">" then "&gt;"
  else if Ascii.eqb c dquote then "&quot;"
  else if Ascii.eqb c "'" then "&#39;"
  else String c EmptyString.

(** escaping in one pass, character by character *)
Fixpoint escapeEach (s : string) : string :=
  match s with
  | EmptyString => EmptyString
  | String c r => escapeChar c ++ escapeEach r
  end.

(** [s.includes(c)] for one character *)
Fixpoint hasChar (c : ascii) (s : string) : bool :=
  match s with
  | EmptyString => false
  | String x r => Ascii.eqb x c || hasChar c r
  end.

(** the reader of escaped text: the five entities back to their characters *)
Fixpoint unescapeHtml (s : string) : string :=
  match s with
  | EmptyString => EmptyString
  | String "&" (String "a" (String "m" (String "p" (String ";" r)))) =>
      String "&" (unescapeHtml r)
  | String "&" (String "l" (String "t" (String ";" r))) =>
      String "<" (unescapeHtml r)
  | String "&" (String "g" (String "t" (String ";" r))) =>
      String ">" (unescapeHtml r)
  | String "&" (String "q" (String "u" (String "o" (String "t"
      (String ";" r))))) =>
      String dquote (unescapeHtml r)
  | String "&" (String "#" (String "3" (String "9" (String ";" r)))) =>
      String "'" (unescapeHtml r)
  | String c r => String c (unescapeHtml r)
  end.

(** ** Locations *)

(** a path segment: not empty, without a slash *)
Definition segment (p : string) : Prop :=
  Js.nonEmpty p = true /\ hasChar "/" p = false.

(** the pathname whose segments are [segs] *)
Definition pathOf (segs : list string) : string :=
  "/" ++ String.concat "/" segs.

Definition atPath (segs : list string) : Location :=
  {| href := "https://huggingface.co" ++ pathOf segs; pathname := pathOf segs |}.

(** the segments the type prefix takes *)
Definition prefixLength (segs : list string) : nat :=
  match segs with
  | s :: _ => if String.eqb s "datasets" || String.eqb s "spaces" then 1 else 0
  | [] => 0
  end.

Definition kindOf (segs : list string) : string :=
  match segs with
  | s :: _ => if String.eqb s "datasets" then "dataset"
              else if String.eqb s "spaces" then "space" else "model"
  | [] => "model"
  end.

(** the revision the resolver reads off the segments *)
Definition revisionOf (segs : list string) : string :=
  match indexOf "tree" segs with
  | Some treeIdx =>
      match segs !! (treeIdx + 1) with
      | Some rev => rev
      | None => "main"
      end
  | None => "main"
  end.

(** ** A pass as one rewriting of the document *)

(** icon updates by position, as the loops of a pass perform them *)
Definition applyUpdates (us : list (nat * Verdict)) (pg : list Elem)
  : list Elem :=
  fold_left (fun pg u => updateFileIcon pg (fst u) (snd u)) us pg.

Definition applyIcon (o : option Verdict) (e : Elem) : Elem :=
  match o with
  | Some v => setIcon (Some v) e
  | None => e
  end.

(** the updates that write [vs], position by position, from position [k] *)
Fixpoint updatesFrom (k : nat) (vs : list (option Verdict))
  : list (nat * Verdict) :=
  match vs with
  | [] => []
  | Some v :: r => (k, v) :: updatesFrom (S k) r
  | None :: r => updatesFrom (S k) r
  end.



(** the same for the rows of [findAllFolderRows] *)
Definition selFolder (g : string -> Verdict) (e : Elem) : option Verdict :=
  match el_link e with
  | TreeLink _ path => if hfcFolderProcessed e then None else Some (g path)
  | BlobLink _ _ => None
  end.










(** the status the aggregator gives a path, 'unknown' standing in where it
    raises *)
Definition statusOr (allFiles : list ManifestEntry) (path : string)
  : Verdict :=
  match calculateFolderStatus path allFiles with
  | Some fs => fs_status fs
  | None => VUnknown
  end.






(** the link of the element at a position *)
Definition linkAt (pg : list Elem) (i : nat) : option Link :=
  el_link <$> pg !! i.




(** ** The manifest cache along a pass *)

Definition outcomeSys (o : Outcome) : Sys :=
  match o with
  | Suspend _ s => s
  | Finish _ s => s
  end.

(** what the cache may hold once a pass started from [s0] has dealt with
    the folders *)
Definition cacheAfter (srv : Server) (s0 s : Sys) : Prop :=
  match repoData (state s0) with
  | Some rd => repoData (state s) = Some rd
  | None =>
      repoData (state s) = None \/
      exists i d, getRepoInfoFromUrl (location s0) = Some i /\
                  api_check_repo srv (repoRequest i) = Resolved d /\
                  repoData (state s) = Some d
  end.

Definition cacheKept (srv : Server) (s0 : Sys) (o : Outcome) : Prop :=
  match o with
  | Suspend AwaitStatus s =>
      repoData (state s) = repoData (state s0) /\ location s = location s0
  | Suspend (AwaitRepo _ _ req) s =>
      repoData (state s) = None /\ repoData (state s0) = None /\
      exists i, getRepoInfoFromUrl (location s0) = Some i /\
                req = repoRequest i
  | Suspend (AwaitBatch _ _) s => cacheAfter srv s0 s
  | Finish _ s => cacheAfter srv s0 s
  end.

(** ** The other handlers *)

(** [updateFolderIcons] (lines 1011-1026) *)
Definition updateFolderIcons (s : Sys) : Completion * Sys :=
  let pg := map (setFolderProcessed false) (page s) in
  let '(folders, pg) := findAllFolderRows pg in
  match repoFiles (state s) with
  | Some allFiles =>
      let '(c, pg) := classifyFolders allFiles folders pg in
      (c, withPage s pg)
  | None => (Returned, withPage s pg)
  end.

(** how [scanFullRepo] ends for the user *)
Inductive FullScanEnd : Type :=
  | AlertNotConnected          (* 'Server not connected...' *)
  | AlertNoRepo                (* 'Could not detect repository from URL' *)
  | AlertError                 (* 'Error scanning repository: ...' *)
  | Presented (result : RepoData).
                               (* [showRepoModal(result)] is reached *)

(** [scanFullRepo] (lines 1079-1124), up to the call of [showRepoModal] *)
Definition scanFullRepo (srv : Server) (s : Sys) : FullScanEnd * Sys :=
  if negb (connected (state s)) then (AlertNotConnected, s)
  else
    match getRepoInfoFromUrl (location s) with
    | None => (AlertNoRepo, s)
    | Some repoInfo =>
        match api_check_repo srv (repoRequest repoInfo) with
        | Rejected => (AlertError, s)
        | Resolved result =>
            let s := withState s (setRepoData (state s) (Some result)) in
            match updateFolderIcons s with
            | (Returned, s) => (Presented result, s)
            | (Threw, s) => (AlertError, s)
            end
        end
    end.


(** [s.includes(sub)] *)
Fixpoint includes (sub s : string) : bool :=
  String.prefix sub s
  || match s with
     | EmptyString => false
     | String _ r => includes sub r
     end.

(** the test of [init] (lines 1260-1262) *)
Definition isFileBrowser (loc : Location) : bool :=
  let pathParts := List.filter Js.nonEmpty (Js.split "/" (pathname loc)) in
  let isRepoPage := (2 <=? length pathParts)%nat in
  includes "/tree/" (pathname loc) || isRepoPage.

(** the [state] the script starts with (lines 430-443) *)
Definition initialState : State :=
  {| connected := false; serverInfo := None; repoData := None;
     lastUrl := None; stats := zeroStats |}.

(** [init] (lines 1256-1286) with its timer run: the probe, then the
    manifest fetch and the first pass *)
Definition init (probe : ApiOutcome ServerInfo) (srv : Server) (s : Sys)
  : Outcome :=
  if negb (isFileBrowser (location s)) then Finish Returned s
  else
    let s := withState s (checkServerStatus probe (state s)) in
    if connected (state s) then scanCurrentPage srv (autoFetchRepoData srv s)
    else Finish Returned s.

(** the script just loaded on a page *)
Definition loaded (pg : list Elem) (loc : Location) : Sys :=
  {| state := initialState; isScanning := false; page := pg;
     location := loc |}.

(** the element after [updateFolderIcons] with a manifest *)
Definition folderRedrawn (allFiles : list ManifestEntry) (e : Elem) : Elem :=
  match el_link e with
  | BlobLink _ _ => setFolderProcessed false e
  | TreeLink _ path =>
      {| el_link := el_link e; hfcProcessed := hfcProcessed e;
         hfcFolderProcessed := true;
         el_icon := fs_status <$> calculateFolderStatus path allFiles |}
  end.

(** a service that answers a manifest request with the manifest of the
    repository that was asked for *)
Definition answersAsAsked (srv : Server) : Prop :=
  forall req d, api_check_repo srv req = Resolved d ->
                repo_id d = rq_repo_id req.

Definition serverHonest : Server :=
  {| api_status := Resolved {| cache_total_files := 10 |};
     api_check_repo := fun req =>
       if String.eqb (rq_repo_id req) "ownerB/repoB" then Resolved repoBData
       else Rejected;
     api_check_batch := fun _ => Resolved {| results := Some sampleResults |} |}.

(** * Properties *)

(** ** Strings *)

Lemma toLowerCase_nonEmpty (s : string) :
  Js.nonEmpty (Js.toLowerCase s) = Js.nonEmpty s.
Proof. destruct s; reflexivity. Qed.

Lemma orEmpty_Some (s : string) : Js.orEmpty (Some s) = s.
Proof. destruct s; reflexivity. Qed.

Lemma orEmpty_falsy (v : option string) :
  Js.truthy v = false -> Js.orEmpty v = EmptyString.
Proof.
  unfold Js.orEmpty, Js.or. intros ->. reflexivity.
Qed.


Lemma hashKey_present (row : FileRow) (h : string) :
  row_sha256 row = Some h -> hashKey row = Js.toLowerCase h.
Proof. unfold hashKey. intros ->. now rewrite orEmpty_Some. Qed.


(** ** Matching *)

Lemma selectResult_hash (results : gmap string LookupResult) (row : FileRow)
  (h : string) (e : LookupResult) :
  row_sha256 row = Some h -> h <> EmptyString ->
  results !! Js.toLowerCase h = Some e ->
  selectResult results row = Some e.
Proof.
  intros Hh Hne He. unfold selectResult.
  rewrite (hashKey_present _ _ Hh), toLowerCase_nonEmpty.
  destruct h as [|c h']; [congruence|]. cbn [Js.nonEmpty].
  now rewrite He.
Qed.




Lemma updateFileIcon_length (pg : list Elem) (i : nat) (v : Verdict) :
  length (updateFileIcon pg i v) = length pg.
Proof. unfold updateFileIcon. apply length_alter. Qed.

Lemma iconAt_update_eq (pg : list Elem) (i : nat) (v : Verdict) :
  i < length pg -> iconAt (updateFileIcon pg i v) i = Some v.
Proof.
  intros Hi. unfold iconAt, updateFileIcon.
  destruct (lookup_lt_is_Some_2 pg i Hi) as [e He].
  rewrite list_lookup_alter_eq, He. reflexivity.
Qed.

Lemma iconAt_update_ne (pg : list Elem) (i j : nat) (v : Verdict) :
  i <> j -> iconAt (updateFileIcon pg i v) j = iconAt pg j.
Proof.
  intros Hne. unfold iconAt, updateFileIcon.
  now rewrite list_lookup_alter_ne.
Qed.

(** C1. A reference whose hash is present and whose lower-cased hash maps to
    an entry with found=true and mismatch=false is given the verdict 'match',
    whatever the filename key maps to: the icon of its element becomes
    'match' and the matches counter is incremented. *)
Theorem hash_tier_wins (results : gmap string LookupResult) (row : FileRow)
  (h : string) (e : LookupResult) :
  row_sha256 row = Some h -> h <> EmptyString ->
  results !! Js.toLowerCase h = Some e ->
  found e = true -> mismatch e = false ->
  rowVerdict results row = VMatch /\
  forall s : Sys,
    stats (state (matchRow results s row))
      = countVerdict VMatch (stats (state s)) /\
    matches (stats (state (matchRow results s row)))
      = S (matches (stats (state s))) /\
    (row_element row < length (page s) ->
     iconAt (page (matchRow results s row)) (row_element row) = Some VMatch).
Proof.
  intros Hh Hne He Hf Hm.
  assert (Hv : rowVerdict results row = VMatch).
  { unfold rowVerdict. rewrite (selectResult_hash _ _ _ _ Hh Hne He).
    now rewrite Hf, Hm. }
  split; [exact Hv|]. intros s. unfold matchRow. rewrite Hv. cbn.
  repeat split. intros Hlt. now apply iconAt_update_eq.
Qed.


Lemma hash_tier_wins_witness :
  rowVerdict sampleResults sampleRow = VMatch /\
  specVerdict (sampleResults !! nameKey sampleRow) = VMismatch.
Proof.
  split.
  - apply (hash_tier_wins sampleResults sampleRow "AB12" entryHave);
      [reflexivity | discriminate | vm_compute; reflexivity
      | reflexivity | reflexivity].
  - vm_compute. reflexivity.
Defined.

(** in a whole pass: the hash comes from the cached manifest, and the
    entry under it decides although the filename maps to a mismatch *)
Example pass_hash_tier :
  exists s', scanCurrentPage serverUp enrichedSys = Finish Returned s' /\
             iconAt (page s') 0 = Some VMatch /\
             stats (state s')
               = {| matches := 1; mismatches := 0; missing := 0; total := 1 |}.
Proof.
  eexists. split; [vm_compute; reflexivity|]. split; reflexivity.
Qed.



(** ** Folder aggregation *)

Lemma inFolder_wellFormed (folderPath : string) (f : ManifestEntry) :
  Js.truthy (f_path f) = true ->
  inFolder folderPath f = Some (underFolder folderPath f).
Proof.
  unfold inFolder, underFolder, Js.or. intros H. rewrite H.
  destruct (f_path f) as [p|]; [|discriminate].
  now rewrite orb_comm.
Qed.

Lemma filterInFolder_wellFormed (folderPath : string)
  (allFiles : list ManifestEntry) :
  Forall wellFormedEntry allFiles ->
  filterInFolder folderPath allFiles = Some (selected folderPath allFiles).
Proof.
  unfold selected.
  induction 1 as [|f l [Hp _] _ IH]; cbn [filterInFolder List.filter].
  - reflexivity.
  - now rewrite (inFolder_wellFormed _ _ Hp), IH.
Qed.

Lemma selected_wellFormed (folderPath : string)
  (allFiles : list ManifestEntry) :
  Forall wellFormedEntry allFiles ->
  Forall wellFormedEntry (selected folderPath allFiles).
Proof.
  unfold selected. intros H. rewrite List.Forall_forall in *.
  intros f Hf. apply H. now apply List.filter_In in Hf.
Qed.

Lemma countStatus_le (st : string) (l : list ManifestEntry) :
  countStatus st l <= length l.
Proof. unfold countStatus. apply List.filter_length_le. Qed.

Lemma countStatus_all (st : string) (l : list ManifestEntry) :
  countStatus st l = length l <-> allStatus st l.
Proof.
  unfold countStatus, allStatus. induction l as [|f l IH]; cbn.
  - split; [constructor | reflexivity].
  - unfold hasStatus at 1. destruct (String.eqb_spec (f_status f) st) as [E|E].
    + cbn. split.
      * intros H. constructor; [exact E|]. apply IH. lia.
      * intros H. inversion H; subst. f_equal. now apply IH.
    + split.
      * intros H. pose proof (List.filter_length_le (hasStatus st) l). lia.
      * intros H. inversion H; subst. contradiction.
Qed.

Lemma countStatus_partition (l : list ManifestEntry) :
  Forall wellFormedEntry l ->
  countStatus "found" l + countStatus "missing" l + countStatus "mismatch" l
    = length l.
Proof.
  unfold countStatus.
  induction 1 as [|f l [_ Hs] _ IH]; [reflexivity|].
  cbn [List.filter].
  assert (Hb : exists a b c : bool,
             hasStatus "found" f = a /\ hasStatus "missing" f = b /\
             hasStatus "mismatch" f = c /\
             Nat.b2n a + Nat.b2n b + Nat.b2n c = 1).
  { unfold hasStatus.
    destruct Hs as [-> | [-> | ->]]; do 3 eexists; repeat split. }
  destruct Hb as (a & b & c & -> & -> & -> & Hone).
  destruct a, b, c; cbn in Hone |- *; lia.
Qed.

(** C3. On manifest entries of the data model, the aggregator selects
    exactly the entries whose path is the folder path or starts with the
    folder path and a slash, counts them by status, and classifies: none
    selected gives 'unknown', all found 'match', all missing 'missing', any
    other mix 'partial'. *)
Theorem folder_classification (folderPath : string)
  (allFiles : list ManifestEntry) :
  Forall wellFormedEntry allFiles ->
  exists fs,
    calculateFolderStatus folderPath allFiles = Some fs /\
    fs_total fs = length (selected folderPath allFiles) /\
    fs_found fs = countStatus "found" (selected folderPath allFiles) /\
    fs_missing fs = countStatus "missing" (selected folderPath allFiles) /\
    fs_mismatch fs = countStatus "mismatch" (selected folderPath allFiles) /\
    (selected folderPath allFiles = [] -> fs_status fs = VUnknown) /\
    (selected folderPath allFiles <> [] ->
       (allStatus "found" (selected folderPath allFiles) ->
        fs_status fs = VMatch) /\
       (allStatus "missing" (selected folderPath allFiles) ->
        fs_status fs = VMissing) /\
       (~ allStatus "found" (selected folderPath allFiles) ->
        ~ allStatus "missing" (selected folderPath allFiles) ->
        fs_status fs = VPartial)).
Proof.
  intros Hwf. unfold calculateFolderStatus.
  rewrite (filterInFolder_wellFormed _ _ Hwf).
  pose proof (selected_wellFormed folderPath _ Hwf) as Hsel.
  set (sel := selected folderPath allFiles) in *.
  pose proof (countStatus_partition sel Hsel) as Hsum.
  pose proof (countStatus_all "found" sel) as Hf.
  pose proof (countStatus_all "missing" sel) as Hm.
  destruct sel as [|f0 sel'] eqn:E.
  - cbn. eexists; split; [reflexivity|]. cbn. repeat split; congruence.
  - rewrite <- E in *. assert (Hlen : length sel <> 0) by (rewrite E; cbn; lia).
    destruct (Nat.eqb_spec (length sel) 0) as [|_]; [contradiction|].
    eexists; split; [reflexivity|]. cbn.
    repeat split; try congruence.
    + intros Hall. apply Hf in Hall. now rewrite Hall, Nat.eqb_refl.
    + intros Hall. apply Hm in Hall.
      destruct (Nat.eqb_spec (countStatus "found" sel) (length sel)) as [A|_];
        [lia|].
      now rewrite Hall, Nat.eqb_refl.
    + intros Hnf Hnm.
      destruct (Nat.eqb_spec (countStatus "found" sel) (length sel)) as [A|A];
        [now apply Hf in A|].
      destruct (Nat.eqb_spec (countStatus "missing" sel) (length sel)) as [B|B];
        [now apply Hm in B|].
      destruct (countStatus "found" sel) as [|nf];
        destruct (countStatus "mismatch" sel) as [|nm];
        try reflexivity.
      cbn in Hsum. rewrite Nat.add_0_r in Hsum. congruence.
Qed.

Lemma sampleManifest_wellFormed : Forall wellFormedEntry sampleManifest.
Proof.
  unfold sampleManifest.
  repeat (apply List.Forall_cons; [split; [reflexivity | cbn; auto] |]).
  apply List.Forall_nil.
Qed.

Lemma folder_classification_witness :
  exists fs,
    calculateFolderStatus "unet" sampleManifest = Some fs /\
    fs_total fs = 3 /\ fs_status fs = VPartial.
Proof.
  destruct (folder_classification "unet" sampleManifest
              sampleManifest_wellFormed)
    as (fs & Hc & Ht & _ & _ & _ & _ & Hs).
  exists fs. split; [exact Hc|]. split; [exact Ht|].
  apply Hs.
  - discriminate.
  - intros H. inversion H; subst.
    match goal with
    | H' : Forall _ (_ :: _) |- _ => inversion H'; subst; discriminate
    end.
  - intros H. inversion H; subst. discriminate.
Defined.

(** the four cases the specification lists, and its end-to-end folder *)
Example folder_cases :
  fs_status <$> calculateFolderStatus "d"
      [entryAt "d/a" "found"; entryAt "d/b" "found"] = Some VMatch /\
  fs_status <$> calculateFolderStatus "d"
      [entryAt "d/a" "missing"; entryAt "d/b" "missing"] = Some VMissing /\
  fs_status <$> calculateFolderStatus "d"
      [entryAt "d/a" "found"; entryAt "d/b" "missing"] = Some VPartial /\
  fs_status <$> calculateFolderStatus "d" [] = Some VUnknown /\
  fs_status <$> calculateFolderStatus "d" [entryAt "e/a" "found"]
    = Some VUnknown /\
  calculateFolderStatus "d"
      [entryAt "d/a" "mismatch"; entryAt "d/b" "found"; entryAt "d/c" "found"]
    = Some {| fs_status := VPartial; fs_found := 2; fs_missing := 0;
              fs_mismatch := 1; fs_total := 3 |}.
Proof. repeat split. Qed.

(** outside the data model the aggregator falls back: a status that is none
    of the three counts for nothing, an entry without a path is filed under
    its filename, and an entry with neither raises *)
Example folder_fallbacks :
  fs_status <$> calculateFolderStatus "d" [entryAt "d/a" "error"]
    = Some VMissing /\
  fs_total <$> calculateFolderStatus "d"
      [{| f_path := None; f_filename := Some "d/a"; f_sha256 := None;
          f_status := "found" |}] = Some 1 /\
  calculateFolderStatus "d"
      [{| f_path := None; f_filename := None; f_sha256 := None;
          f_status := "found" |}] = None.
Proof. repeat split. Qed.

(** ** Enrichment *)

Lemma enrichRow_present (rd : option RepoData) (r : FileRow) :
  Js.truthy (row_sha256 r) = true ->
  enrichRow rd r = (r, mkReq r (row_sha256 r)).
Proof. unfold enrichRow. now intros ->. Qed.

Lemma enrichRow_cases (rd : option RepoData) (r : FileRow) :
  fst (enrichRow rd r) = r \/
  Js.truthy (row_sha256 (fst (enrichRow rd r))) = true.
Proof.
  unfold enrichRow.
  destruct (Js.truthy (row_sha256 r)); [now left|].
  destruct rd as [rd|]; [|now left].
  destruct (files rd) as [fl|]; [|now left].
  destruct (List.find _ fl) as [f|]; [|now left].
  destruct (Js.truthy (f_sha256 f)) eqn:E; [now right | now left].
Qed.

(** C6. Enrichment leaves a reference that carries a hash unchanged,
    whatever manifest is cached and however often it is attempted; and on
    any reference a second attempt against the same manifest changes
    nothing. *)
Theorem enrichment_idempotent (r : FileRow) :
  (Js.truthy (row_sha256 r) = true ->
   forall rd, fst (enrichRow rd r) = r /\
              req_sha256 (snd (enrichRow rd r)) = row_sha256 r) /\
  (Js.truthy (row_sha256 r) = true ->
   forall rds, enrichRepeatedly rds r = r) /\
  (forall rd, fst (enrichRow rd (fst (enrichRow rd r)))
              = fst (enrichRow rd r)).
Proof.
  repeat split.
  - now rewrite (enrichRow_present rd r H).
  - now rewrite (enrichRow_present rd r H).
  - intros H rds. unfold enrichRepeatedly.
    induction rds as [|rd rds IH]; [reflexivity|].
    cbn [fold_left]. now rewrite (enrichRow_present rd r H).
  - intros rd. destruct (enrichRow_cases rd r) as [E|E].
    + now rewrite E.
    + now rewrite (enrichRow_present rd _ E).
Qed.

Lemma enrichment_idempotent_witness :
  enrichRepeatedly
    [Some (sampleRepo "o/r" [hashedEntry "unet/Model.BIN" "ffff"]); None]
    sampleRow = sampleRow.
Proof.
  apply (proj1 (proj2 (enrichment_idempotent sampleRow))). reflexivity.
Defined.

(** without a hash the same manifest does enrich the reference *)
Example enrichment_copies_hash :
  row_sha256 (fst (enrichRow
                     (Some (sampleRepo "o/r"
                              [hashedEntry "unet/Model.BIN" "ffff"]))
                     sampleRowNoHash)) = Some "ffff".
Proof. reflexivity. Qed.

(** ** The in-flight flag along a pass *)

Lemma finishFiles_flag results rows s :
  flagRule (isScanning s) (finishFiles results rows s).
Proof. destruct results; reflexivity. Qed.

Lemma checkRows_flag rows s : flagRule (isScanning s) (checkRows rows s).
Proof.
  unfold checkRows. destruct (0 <? length rows)%nat; [|reflexivity].
  cbn [state withState connected setStats].
  destruct (connected (state s)); [reflexivity|].
  apply (finishFiles_flag None).
Qed.

Lemma updateFolders_flag rows folders s :
  flagRule (isScanning s) (updateFolders rows folders s).
Proof.
  unfold updateFolders. destruct (repoFiles (state s)) as [allFiles|].
  - destruct (classifyFolders allFiles folders (page s)) as [[] pg].
    + apply (checkRows_flag rows (withPage s pg)).
    + reflexivity.
  - apply (checkRows_flag rows (withPage s _)).
Qed.

Lemma after_repo_flag o rows folders s :
  flagRule (isScanning s) (after_repo o rows folders s).
Proof.
  unfold after_repo. destruct o as [d|].
  - apply (updateFolders_flag rows folders (withState s _)).
  - apply updateFolders_flag.
Qed.

Lemma after_status_flag o s : flagRule (isScanning s) (after_status o s).
Proof.
  unfold after_status.
  set (s1 := withState s (checkServerStatus o (state s))).
  destruct (negb (connected (state s1))); [reflexivity|].
  destruct (findAllFileRows (page s1)) as [rows pg].
  destruct (findAllFolderRows pg) as [folders pg'].
  match goal with
  | |- context [withPage s1 ?p] => set (s2 := withPage s1 p)
  end.
  destruct (_ && _).
  - destruct (getRepoInfoFromUrl (location s2)); [reflexivity|].
    apply (updateFolders_flag rows folders s2).
  - apply (updateFolders_flag rows folders s2).
Qed.

Lemma after_batch_flag o rows s : flagRule (isScanning s) (after_batch o rows s).
Proof. apply finishFiles_flag. Qed.

Lemma resume_flag srv k s : flagRule (isScanning s) (resume srv k s).
Proof.
  destruct k; cbn [resume].
  - apply after_status_flag.
  - apply after_repo_flag.
  - apply after_batch_flag.
Qed.

(** ** Every pass comes to an end *)

Lemma finishFiles_pending results rows s :
  pending (finishFiles results rows s) = 0.
Proof. destruct results; reflexivity. Qed.

Lemma checkRows_pending rows s : pending (checkRows rows s) <= 1.
Proof.
  unfold checkRows. destruct (0 <? length rows)%nat; [|cbn; lia].
  cbn [state withState connected setStats].
  destruct (connected (state s)); [cbn; lia|].
  rewrite finishFiles_pending. lia.
Qed.

Lemma updateFolders_pending rows folders s :
  pending (updateFolders rows folders s) <= 1.
Proof.
  unfold updateFolders. destruct (repoFiles (state s)) as [allFiles|].
  - destruct (classifyFolders allFiles folders (page s)) as [[] pg].
    + apply checkRows_pending.
    + cbn; lia.
  - apply checkRows_pending.
Qed.

Lemma resume_pending srv k s : pending (resume srv k s) < rank k.
Proof.
  destruct k; cbn [resume rank].
  - unfold after_status.
    set (s1 := withState s _).
    destruct (negb (connected (state s1))); [cbn; lia|].
    destruct (findAllFileRows (page s1)) as [rows pg].
    destruct (findAllFolderRows pg) as [folders pg'].
    match goal with
    | |- context [withPage s1 ?p] => set (s2 := withPage s1 p)
    end.
    pose proof (updateFolders_pending rows folders s2).
    destruct (_ && _); [|lia].
    destruct (getRepoInfoFromUrl (location s2)); [cbn|]; lia.
  - unfold after_repo.
    match goal with
    | |- context [updateFolders rows folders ?x] =>
        pose proof (updateFolders_pending rows folders x)
    end. lia.
  - unfold after_batch. rewrite finishFiles_pending. lia.
Qed.

Lemma drive_finishes srv n o :
  pending o <= n -> finished (drive n srv o) = true.
Proof.
  revert o. induction n as [|n IH]; intros o Hp.
  - destruct o as [k s|c s]; [destruct k; cbn in Hp; lia | reflexivity].
  - destruct o as [k s|c s]; [|reflexivity].
    cbn [drive]. apply IH.
    pose proof (resume_pending srv k s). cbn [pending] in Hp. lia.
Qed.

Lemma drive_flag srv n o b :
  flagRule b o -> flagRule b (drive n srv o).
Proof.
  revert o. induction n as [|n IH]; intros o Ho.
  - destruct o; exact Ho.
  - destruct o as [k s|c s]; [|exact Ho].
    cbn [drive]. apply IH. cbn in Ho. subst b. apply resume_flag.
Qed.

Lemma scanCurrentPage_finishes srv s :
  exists c s', scanCurrentPage srv s = Finish c s'.
Proof.
  unfold scanCurrentPage.
  assert (H : finished (drive 3 srv (scan_call s)) = true).
  { apply drive_finishes. unfold scan_call.
    destruct (isScanning s); cbn; lia. }
  destruct (drive 3 srv (scan_call s)) as [k s'|c s']; [discriminate|].
  now exists c, s'.
Qed.

Lemma scan_call_flag s :
  flagRule true (scan_call s) \/ (isScanning s = true /\ scan_call s = Finish Returned s).
Proof.
  unfold scan_call. destruct (isScanning s) eqn:E; [right | left]; auto.
  reflexivity.
Qed.

(** C10. An invocation that passes the guard sets the flag, always comes to
    an end, by return or by exception, and ends with the flag cleared, so
    that the next call starts a pass; the same holds for a pass resumed at
    any of its awaits. *)
Theorem guard_always_released (srv : Server) (s : Sys) :
  isScanning s = false ->
  isScanning (scan_begin s) = true /\
  (exists c s', scanCurrentPage srv s = Finish c s' /\ isScanning s' = false /\
                scan_call s' = Suspend AwaitStatus (scan_begin s')) /\
  (forall srv' k s0 c s',
     resume srv' k s0 = Finish c s' -> isScanning s' = false).
Proof.
  intros Hidle. split; [reflexivity|]. split.
  - destruct (scanCurrentPage_finishes srv s) as (c & s' & E).
    exists c, s'. split; [exact E|].
    assert (H : flagRule true (scanCurrentPage srv s)).
    { unfold scanCurrentPage. apply drive_flag.
      unfold scan_call. rewrite Hidle. reflexivity. }
    rewrite E in H. cbn in H. split; [exact H|].
    unfold scan_call. now rewrite H.
  - intros srv' k s0 c s' E.
    pose proof (resume_flag srv' k s0) as H. rewrite E in H. exact H.
Qed.

Lemma guard_always_released_witness :
  exists s', scanCurrentPage serverUp brokenManifestSys = Finish Threw s'
             /\ isScanning s' = false.
Proof.
  destruct (guard_always_released serverUp brokenManifestSys eq_refl)
    as (_ & (c & s' & E & Hflag & _) & _).
  exists s'. split; [|exact Hflag].
  rewrite E. f_equal.
  assert (Hc : match scanCurrentPage serverUp brokenManifestSys with
               | Finish c0 _ => c0
               | Suspend _ _ => Returned
               end = Threw) by (vm_compute; reflexivity).
  rewrite E in Hc. exact Hc.
Defined.

(** the three ways a pass ends: dropped at the guard, early return on a
    failed probe, exception in the folder aggregation *)
Example pass_endings :
  scanCurrentPage serverUp (withScanning sampleSys true)
    = Finish Returned (withScanning sampleSys true) /\
  (exists s', scanCurrentPage serverDown sampleSys = Finish Returned s') /\
  (exists s', scanCurrentPage serverUp brokenManifestSys = Finish Threw s').
Proof.
  split; [reflexivity|]. split; eexists; vm_compute; reflexivity.
Qed.

(** ** The scheduler *)

Lemma step_oneInFlight (m : Machine) (ev : Event) :
  oneInFlight m -> oneInFlight (step m ev).
Proof.
  unfold oneInFlight. intros Inv. destruct ev as [|i srv|st pg loc].
  - cbn [step]. unfold scan_call.
    destruct (isScanning (sys m)) eqn:E; cbn; [now rewrite E|].
    now rewrite Inv.
  - cbn [step]. destruct (inflight m !! i) as [k|] eqn:Hk; [|exact Inv].
    pose proof (lookup_lt_Some _ _ _ Hk) as Hlt.
    destruct (isScanning (sys m)) eqn:E; [|lia].
    pose proof (resume_flag srv k (sys m)) as Hf.
    destruct (resume srv k (sys m)) as [k' s'|c s']; cbn in Hf |- *.
    + rewrite length_insert, Hf, E. exact Inv.
    + rewrite Hf, length_delete by eauto. lia.
  - exact Inv.
Qed.

Lemma run_oneInFlight (evs : list Event) (m : Machine) :
  oneInFlight m -> oneInFlight (run evs m).
Proof.
  unfold run. revert m. induction evs as [|ev evs IH]; intros m Inv.
  - exact Inv.
  - cbn [fold_left]. apply IH. now apply step_oneInFlight.
Qed.

Lemma reached_oneInFlight evs st pg loc : oneInFlight (reached evs st pg loc).
Proof. apply run_oneInFlight. reflexivity. Qed.

Lemma trigger_dropped (m : Machine) :
  isScanning (sys m) = true -> step m Trigger = m.
Proof.
  intros E. cbn [step]. unfold scan_call. rewrite E. now destruct m.
Qed.

Lemma mutationPass_dropped (srv : Server) (s : Sys) :
  isScanning s = true -> mutationPass srv s = Finish Returned s.
Proof.
  intros E. unfold mutationPass, mutationTick.
  now rewrite E, andb_false_r.
Qed.

(** C5. Whatever events arrive, at most one pass is in flight, and one is
    exactly while the flag is set; a trigger that arrives while the flag is
    set changes nothing, be it a direct call or the observer's callback, so
    of two triggers back-to-back only the first starts a pass. *)
Theorem single_pass_in_flight (evs : list Event) (st : State)
  (pg : list Elem) (loc : Location) :
  length (inflight (reached evs st pg loc)) <= 1 /\
  (isScanning (sys (reached evs st pg loc)) = true <->
   length (inflight (reached evs st pg loc)) = 1) /\
  (isScanning (sys (reached evs st pg loc)) = true ->
   step (reached evs st pg loc) Trigger = reached evs st pg loc /\
   forall srv, mutationPass srv (sys (reached evs st pg loc))
               = Finish Returned (sys (reached evs st pg loc))) /\
  (isScanning (sys (reached evs st pg loc)) = false ->
   inflight (step (reached evs st pg loc) Trigger) = [AwaitStatus] /\
   isScanning (sys (step (reached evs st pg loc) Trigger)) = true /\
   step (step (reached evs st pg loc) Trigger) Trigger
     = step (reached evs st pg loc) Trigger).
Proof.
  pose proof (reached_oneInFlight evs st pg loc) as Inv.
  set (m := reached evs st pg loc) in *. unfold oneInFlight in Inv.
  repeat split.
  - destruct (isScanning (sys m)); lia.
  - intros E. now rewrite E in Inv.
  - intros E. destruct (isScanning (sys m)); [reflexivity | lia].
  - now apply trigger_dropped.
  - intros srv. now apply mutationPass_dropped.
  - cbn [step]. unfold scan_call. rewrite H. cbn.
    rewrite H in Inv. now destruct (inflight m).
  - cbn [step]. unfold scan_call. now rewrite H.
  - apply trigger_dropped. cbn [step]. unfold scan_call. now rewrite H.
Qed.

Lemma single_pass_in_flight_witness :
  inflight (run [Trigger; Trigger; Environment (state sampleSys) samplePage
                   repoBLocation; Trigger]
              (idle (state sampleSys) samplePage repoBLocation))
    = [AwaitStatus] /\
  inflight (run [Trigger; Answer 0 serverDown]
              (idle (state sampleSys) samplePage repoBLocation)) = [].
Proof.
  split.
  - pose proof (proj1 (proj1 (proj2 (proj2 (single_pass_in_flight
        [Trigger; Trigger; Environment (state sampleSys) samplePage
           repoBLocation]
        (state sampleSys) samplePage repoBLocation))) eq_refl)) as H.
    change (run [Trigger; Trigger; Environment (state sampleSys) samplePage
                   repoBLocation; Trigger]
              (idle (state sampleSys) samplePage repoBLocation))
      with (step (reached [Trigger; Trigger; Environment (state sampleSys)
                             samplePage repoBLocation]
                    (state sampleSys) samplePage repoBLocation) Trigger).
    rewrite H. reflexivity.
  - reflexivity.
Defined.

(** ** The document along a pass *)

Lemma updateFileIcon_links pg i v :
  map el_link (updateFileIcon pg i v) = map el_link pg.
Proof.
  unfold updateFileIcon. revert i.
  induction pg as [|e pg IH]; intros [|i]; cbn; try reflexivity.
  f_equal. apply IH.
Qed.

Lemma lookup_link (pg pg' : list Elem) i e :
  map el_link pg' = map el_link pg -> pg' !! i = Some e ->
  exists e0, pg !! i = Some e0 /\ el_link e0 = el_link e.
Proof.
  intros Hl He.
  assert (H : map el_link pg' !! i = Some (el_link e))
    by (rewrite list_lookup_fmap, He; reflexivity).
  rewrite Hl, list_lookup_fmap in H.
  destruct (pg !! i) as [e0|]; [|discriminate].
  exists e0. split; [reflexivity|]. cbn in H. congruence.
Qed.

Lemma covers_links rows pg pg' :
  map el_link pg' = map el_link pg -> covers rows pg -> covers rows pg'.
Proof.
  intros Hl Hc i e He Hb.
  destruct (lookup_link pg pg' i e Hl He) as (e0 & He0 & Hk).
  apply (Hc i e0 He0). unfold isBlob in *. now rewrite Hk.
Qed.

Lemma fold_update_links {A} (f : A -> nat) v (l : list A) pg :
  map el_link (fold_left (fun pg x => updateFileIcon pg (f x) v) l pg)
    = map el_link pg.
Proof.
  revert pg. induction l as [|x l IH]; intros pg; [reflexivity|].
  cbn [fold_left]. now rewrite IH, updateFileIcon_links.
Qed.

Lemma markUnknown_links rows pg :
  map el_link (markUnknown rows pg) = map el_link pg.
Proof. apply fold_update_links. Qed.

Lemma foldersUnknown_links folders pg :
  map el_link (foldersUnknown folders pg) = map el_link pg.
Proof. apply fold_update_links. Qed.

Lemma markLoading_links els pg :
  map el_link (markLoading els pg) = map el_link pg.
Proof. apply (fold_update_links (fun x => x)). Qed.

Lemma classifyFolders_links allFiles folders pg :
  map el_link (snd (classifyFolders allFiles folders pg)) = map el_link pg.
Proof.
  revert pg. induction folders as [|f folders IH]; intros pg; [reflexivity|].
  cbn [classifyFolders].
  destruct (calculateFolderStatus _ _); [|reflexivity].
  now rewrite IH, updateFileIcon_links.
Qed.

Lemma clearIconsAndFlags_links pg :
  map el_link (clearIconsAndFlags pg) = map el_link pg.
Proof.
  unfold clearIconsAndFlags. rewrite List.map_map. reflexivity.
Qed.

Lemma flagFileRow_links pg : map el_link (map flagFileRow pg) = map el_link pg.
Proof.
  rewrite List.map_map. apply List.map_ext.
  intros e. unfold flagFileRow. destruct (el_link e) eqn:E; cbn; congruence.
Qed.

Lemma flagFolderRow_links pg :
  map el_link (map flagFolderRow pg) = map el_link pg.
Proof.
  rewrite List.map_map. apply List.map_ext.
  intros e. unfold flagFolderRow. destruct (el_link e) eqn:E; cbn; congruence.
Qed.

Lemma iconAt_clear pg i : iconAt (clearIconsAndFlags pg) i = None.
Proof.
  unfold iconAt, clearIconsAndFlags. rewrite list_lookup_fmap.
  now destruct (pg !! i).
Qed.


(** ... and every unflagged blob link gets one *)
Lemma fileRowsFrom_covers k pg i e :
  pg !! i = Some e -> isBlob e = true -> hfcProcessed e = false ->
  exists r, In r (fileRowsFrom k pg) /\ row_element r = k + i.
Proof.
  revert k i. induction pg as [|e0 pg IH]; intros k i He Hb Hp;
    [discriminate|].
  destruct i as [|i].
  - cbn in He. injection He as ->. cbn [fileRowsFrom].
    unfold isBlob in Hb. destruct (el_link e); [|discriminate].
    rewrite Hp. eexists. split; [left; reflexivity|]. cbn. lia.
  - cbn in He. destruct (IH (S k) i He Hb Hp) as (r & Hin & Hr).
    exists r. split; [|lia]. cbn [fileRowsFrom].
    destruct (el_link e0); [|exact Hin].
    destruct (hfcProcessed e0); [exact Hin | now right].
Qed.

Lemma clearIconsAndFlags_covers pg :
  covers (fileRowsFrom 0 (clearIconsAndFlags pg)) (clearIconsAndFlags pg).
Proof.
  intros i e He Hb.
  apply (fileRowsFrom_covers 0 _ i e He Hb).
  unfold clearIconsAndFlags in He. rewrite list_lookup_fmap in He.
  destruct (pg !! i); [|discriminate]. cbn in He. now injection He as <-.
Qed.

Lemma markUnknown_marks rows pg i :
  i < length pg ->
  (iconAt pg i = Some VUnknown \/ exists r, In r rows /\ row_element r = i) ->
  iconAt (markUnknown rows pg) i = Some VUnknown.
Proof.
  unfold markUnknown. revert pg.
  induction rows as [|r rows IH]; intros pg Hlt H.
  - destruct H as [H|(r & [] & _)]. exact H.
  - cbn [fold_left]. apply IH; [now rewrite updateFileIcon_length|].
    destruct (Nat.eq_dec (row_element r) i) as [->|Hne].
    + left. now apply iconAt_update_eq.
    + destruct H as [H|(r' & [->|Hin] & Hr)].
      * left. now rewrite iconAt_update_ne.
      * contradiction.
      * right. now exists r'.
Qed.

Lemma markUnknown_covers rows pg :
  covers rows pg -> allFilesShow (Some VUnknown) (markUnknown rows pg).
Proof.
  intros Hc i e He Hb.
  pose proof (lookup_lt_Some _ _ _ He) as Hlt.
  destruct (lookup_link pg _ i e (markUnknown_links rows pg) He)
    as (e0 & He0 & Hk).
  assert (Hb0 : isBlob e0 = true) by (unfold isBlob in *; now rewrite Hk).
  pose proof (markUnknown_marks rows pg i) as H.
  unfold iconAt in H at 2. rewrite He in H. apply H.
  - eapply lookup_lt_Some; eauto.
  - right. eauto.
Qed.

(** ** A pass whose batch lookup fails *)

Lemma enrichRow_element rd r : row_element (fst (enrichRow rd r)) = row_element r.
Proof.
  unfold enrichRow. destruct (Js.truthy (row_sha256 r)); [reflexivity|].
  destruct rd as [rd|]; [|reflexivity].
  destruct (files rd) as [fl|]; [|reflexivity].
  destruct (List.find _ fl) as [f|]; [|reflexivity].
  now destruct (Js.truthy (f_sha256 f)).
Qed.

Lemma covers_enriched rd rows pg :
  covers rows pg -> covers (map fst (map (enrichRow rd) rows)) pg.
Proof.
  intros Hc i e He Hb. destruct (Hc i e He Hb) as (r & Hin & Hr).
  exists (fst (enrichRow rd r)). split.
  - rewrite List.map_map. apply List.in_map_iff. eauto.
  - now rewrite enrichRow_element.
Qed.

Lemma finishFiles_degraded rows s :
  covers rows (page s) -> noCounts (stats (state s)) ->
  degraded (finishFiles None rows s).
Proof.
  intros Hc Hn. cbn. intros _. split; [|exact Hn].
  now apply markUnknown_covers.
Qed.

Lemma checkRows_degraded rows s :
  covers rows (page s) -> noCounts (stats (state s)) ->
  degraded (checkRows rows s).
Proof.
  intros Hc Hn. unfold checkRows.
  destruct (Nat.ltb_spec 0 (length rows)) as [Hpos|Hz].
  - cbn [state withState connected setStats repoData].
    destruct (connected (state s)).
    + cbn. split; [now apply covers_enriched | exact Hn].
    + apply finishFiles_degraded; [now apply covers_enriched | exact Hn].
  - cbn. intros _. split; [|exact Hn].
    intros i e He Hb. destruct (Hc i e He Hb) as (r & Hin & _).
    destruct rows; [contradiction | cbn in Hz; lia].
Qed.

Lemma updateFolders_degraded rows folders s :
  covers rows (page s) -> noCounts (stats (state s)) ->
  degraded (updateFolders rows folders s).
Proof.
  intros Hc Hn. unfold updateFolders.
  destruct (repoFiles (state s)) as [allFiles|].
  - pose proof (classifyFolders_links allFiles folders (page s)) as Hl.
    destruct (classifyFolders allFiles folders (page s)) as [[] pg];
      [|exact I].
    apply checkRows_degraded; [|exact Hn].
    now apply (covers_links rows (page s)).
  - apply checkRows_degraded; [|exact Hn].
    apply (covers_links rows (page s)); [|exact Hc].
    apply foldersUnknown_links.
Qed.

Lemma after_status_degraded o s :
  degraded (Suspend AwaitStatus s) -> degraded (after_status o s).
Proof.
  intros [Hc Hn]. unfold after_status.
  set (s1 := withState s (checkServerStatus o (state s))).
  assert (Hn1 : noCounts (stats (state s1))) by (destruct o; exact Hn).
  destruct (connected (state s1)) eqn:Hcon; cbn [negb].
  2:{ intros H. change (connected (state s1) = true) in H. congruence. }
  unfold findAllFileRows, findAllFolderRows.
  match goal with
  | |- context [withPage s1 ?p] => set (pg := p)
  end.
  assert (Hl : map el_link pg = map el_link (page s)).
  { subst pg. rewrite !markLoading_links, flagFolderRow_links.
    apply flagFileRow_links. }
  assert (Hc' : covers (fileRowsFrom 0 (page s1)) (page (withPage s1 pg))).
  { apply (covers_links _ (page s)); assumption. }
  destruct (_ && _).
  - destruct (getRepoInfoFromUrl _).
    + split; assumption.
    + apply updateFolders_degraded; assumption.
  - apply updateFolders_degraded; assumption.
Qed.

Lemma resume_degraded srv k s :
  batchFails srv -> degraded (Suspend k s) -> degraded (resume srv k s).
Proof.
  intros Hb Hd. destruct k as [|rows folders req|rows fls]; cbn [resume].
  - now apply after_status_degraded.
  - destruct Hd as [Hc Hn]. unfold after_repo.
    destruct (api_check_repo srv req); now apply updateFolders_degraded.
  - destruct Hd as [Hc Hn]. unfold after_batch. rewrite (Hb fls).
    now apply finishFiles_degraded.
Qed.

Lemma drive_degraded srv n o :
  batchFails srv -> degraded o -> degraded (drive n srv o).
Proof.
  intros Hb. revert o. induction n as [|n IH]; intros o Hd.
  - destruct o; exact Hd.
  - destruct o as [k s|c s]; [|exact Hd].
    cbn [drive]. apply IH. now apply resume_degraded.
Qed.

Lemma markUnknown_length rows pg : length (markUnknown rows pg) = length pg.
Proof.
  rewrite <- (length_map el_link), markUnknown_links. apply length_map.
Qed.

(** C4. When the batch lookup gives no data, the pass resumed with that
    failure returns having drawn 'unknown' on the element of every row it
    holds and having left the counters as they were; and a whole pass that
    returns connected after such a failure shows 'unknown' on every file
    reference of the page, with matches, mismatches and missing at zero. *)
Theorem lookup_failure_is_unknown (srv : Server) (s : Sys) :
  (forall rows s0,
     exists s', after_batch Rejected rows s0 = Finish Returned s' /\
       stats (state s') = stats (state s0) /\
       forall r, In r rows -> row_element r < length (page s0) ->
                 iconAt (page s') (row_element r) = Some VUnknown /\
                 iconAt (page s') (row_element r) <> Some VMissing) /\
  (isScanning s = false -> batchFails srv ->
   forall s', scanCurrentPage srv s = Finish Returned s' ->
              connected (state s') = true ->
              allFilesShow (Some VUnknown) (page s') /\
              noCounts (stats (state s'))).
Proof.
  split.
  - intros rows s0. eexists. split; [reflexivity|]. split; [reflexivity|].
    intros r Hin Hlt. cbn [page withPage withScanning].
    assert (H : iconAt (markUnknown rows (page s0)) (row_element r)
                = Some VUnknown).
    { apply markUnknown_marks; [exact Hlt | right; eauto]. }
    rewrite H. split; [reflexivity | discriminate].
  - intros Hidle Hb s' E Hcon.
    assert (Hd : degraded (scanCurrentPage srv s)).
    { unfold scanCurrentPage. apply drive_degraded; [exact Hb|].
      unfold scan_call. rewrite Hidle. split.
      - apply clearIconsAndFlags_covers.
      - repeat split. }
    rewrite E in Hd. exact (Hd Hcon).
Qed.

(** by contrast, a response that merely lacks the key gives 'missing' and
    is counted *)
Example absent_key_is_missing :
  exists s', scanCurrentPage
               {| api_status := api_status serverUp;
                  api_check_repo := api_check_repo serverUp;
                  api_check_batch := fun _ => Resolved {| results := Some ∅ |} |}
               sampleSys = Finish Returned s' /\
             allFilesShow (Some VMissing) (page s') /\
             missing (stats (state s')) = 2.
Proof.
  eexists. split; [vm_compute; reflexivity|]. split; [|reflexivity].
  intros [|[|i]] e He Hb; cbn in He; try discriminate;
    injection He as <-; reflexivity.
Qed.

Lemma lookup_failure_is_unknown_witness :
  exists s', scanCurrentPage serverNoBatch sampleSys = Finish Returned s' /\
             allFilesShow (Some VUnknown) (page s') /\
             noCounts (stats (state s')) /\
             total (stats (state s')) = 2.
Proof.
  eexists. split; [reflexivity|].
  destruct (proj2 (lookup_failure_is_unknown serverNoBatch sampleSys)
              eq_refl (fun _ => eq_refl) _ eq_refl eq_refl) as [Hshow Hn].
  split; [exact Hshow|]. split; [exact Hn | reflexivity].
Defined.

(** ** A pass whose connectivity probe fails *)

(** C7, as the code has it. When the connectivity probe fails, the pass
    removes every icon and returns at once: no file reference is annotated,
    so none is left 'loading' and none is marked 'unknown', the counters are
    zero, and the session records connected=false. *)
Theorem connectivity_failure_clears (srv : Server) (s : Sys) :
  isScanning s = false -> api_status srv = Rejected ->
  exists s', scanCurrentPage srv s = Finish Returned s' /\
             connected (state s') = false /\
             (forall i, iconAt (page s') i = None) /\
             map el_link (page s') = map el_link (page s) /\
             stats (state s') = zeroStats /\
             isScanning s' = false.
Proof.
  intros Hidle Hrej. unfold scanCurrentPage, scan_call. rewrite Hidle.
  cbn [drive resume]. rewrite Hrej. unfold after_status.
  cbn [checkServerStatus withState state setConnection connected negb].
  cbn [drive finally]. eexists. split; [reflexivity|].
  cbn. repeat split.
  - intros i. apply iconAt_clear.
  - apply clearIconsAndFlags_links.
Qed.

Lemma connectivity_failure_clears_witness :
  exists s', scanCurrentPage serverDown sampleSys = Finish Returned s' /\
             connected (state s') = false /\
             iconAt (page s') 0 = None /\ iconAt (page s') 1 = None.
Proof.
  destruct (connectivity_failure_clears serverDown sampleSys eq_refl eq_refl)
    as (s' & E & Hc & Hi & _).
  exists s'. repeat split; auto.
Defined.

(** C7 as stated fails: after a failed probe a visible file reference is not
    marked 'unknown'. *)
Lemma connectivity_failure_marks_nothing :
  exists s', scanCurrentPage serverDown sampleSys = Finish Returned s' /\
             connected (state s') = false /\
             (exists e, page s' !! 1 = Some e /\ isBlob e = true /\
                        el_icon e <> Some VUnknown) /\
             ~ allFilesShow (Some VUnknown) (page s').
Proof.
  eexists. split; [reflexivity|]. split; [reflexivity|]. split.
  - eexists. split; [reflexivity|]. split; [reflexivity | discriminate].
  - intros H. specialize (H 1 _ eq_refl eq_refl). discriminate.
Qed.

(** ** The mutation observer *)

Lemma autoFetchRepoData_frame srv s :
  page (autoFetchRepoData srv s) = page s /\
  isScanning (autoFetchRepoData srv s) = isScanning s /\
  location (autoFetchRepoData srv s) = location s.
Proof.
  unfold autoFetchRepoData.
  destruct (negb (connected (state s))); [auto|].
  destruct (getRepoInfoFromUrl (location s)) as [i|]; [|auto].
  destruct (sameRepo _ i); [auto|].
  destruct (api_check_repo srv _); auto.
Qed.

Lemma tickNavigation_frame srv s :
  page (tickNavigation srv s) = page s /\
  isScanning (tickNavigation srv s) = isScanning s /\
  location (tickNavigation srv s) = location s.
Proof.
  unfold tickNavigation.
  destruct (Js.seq _ _); [auto|].
  cbn [location withState state setLastUrl repoData].
  destruct (getRepoInfoFromUrl (location s)) as [i|]; [|auto].
  destruct (repoData (state s)) as [rd|]; [|auto].
  destruct (negb _); [|auto].
  match goal with
  | |- context [autoFetchRepoData srv ?x] =>
      destruct (autoFetchRepoData_frame srv x) as (A & B & C);
      rewrite A, B, C
  end.
  auto.
Qed.






(** ** The manifest cache across a change of repository *)

(** the observer does invalidate: after a navigation to another repository
    the cache holds what the refetch returned, or nothing *)
Lemma tick_invalidates_stale_manifest (srv : Server) (s : Sys)
  (i : RepoInfo) (rd : RepoData) :
  connected (state s) = true ->
  Js.seq (Some (href (location s))) (lastUrl (state s)) = false ->
  getRepoInfoFromUrl (location s) = Some i ->
  repoData (state s) = Some rd ->
  repo_id rd <> repoId i ->
  repoData (state (tickNavigation srv s))
    = match api_check_repo srv (repoRequest i) with
      | Resolved d => Some d
      | Rejected => None
      end.
Proof.
  intros Hc Hurl Hi Hrd Hne. unfold tickNavigation. rewrite Hurl.
  cbn [location withState state setLastUrl repoData]. rewrite Hi, Hrd.
  destruct (String.eqb_spec (repo_id rd) (repoId i)) as [|_];
    [contradiction|].
  cbn [negb]. unfold autoFetchRepoData.
  cbn [location withState state setLastUrl setRepoData repoData connected].
  rewrite Hc, Hi. cbn [negb sameRepo].
  now destruct (api_check_repo srv (repoRequest i)).
Qed.

(** C9 fails on the code. A pass called directly (the rescan button) does
    not compare repositories: with the manifest of [ownerA/repoA] cached and
    the location on [ownerB/repoB], the folder of the new tree is classified
    'match' from the old entries and the cache is kept, although the new
    repository's manifest would classify it 'missing'. *)
Theorem stale_manifest_classifies_folder :
  repoId <$> getRepoInfoFromUrl (location staleSys) = Some "ownerB/repoB" /\
  repo_id <$> repoData (state staleSys) = Some "ownerA/repoA" /\
  (exists s', scanCurrentPage serverRepoB staleSys = Finish Returned s' /\
              iconAt (page s') 0 = Some VMatch /\
              repoData (state s') = Some repoAData) /\
  fs_status <$> (files repoBData ≫= calculateFolderStatus "unet")
    = Some VMissing /\
  repoData (state (tickNavigation serverRepoB staleSys)) = Some repoBData.
Proof.
  split; [reflexivity|]. split; [reflexivity|]. split.
  - eexists. split; [reflexivity|]. split; reflexivity.
  - split; reflexivity.
Qed.

(** the same through a pass already in flight: it was called on the old
    page, the navigation happens while its probe is pending, and it resumes
    on the new tree with the old manifest *)
Example stale_manifest_race :
  let m := run [ Trigger;
                 Environment (state staleSys) (page staleSys)
                   (location staleSys);
                 Answer 0 serverRepoB ]
               (idle (state staleSys) samplePage
                  {| href := "https://huggingface.co/ownerA/repoA";
                     pathname := "/ownerA/repoA" |}) in
  inflight m = [] /\ iconAt (page (sys m)) 0 = Some VMatch /\
  repoData (state (sys m)) = Some repoAData.
Proof. repeat split. Qed.

(** * Further properties *)

(** ** The folder aggregator on any manifest *)

Lemma filterInFolder_Some (folderPath : string) (l : list ManifestEntry) :
  Forall (fun f => effectivePath f <> None) l ->
  filterInFolder folderPath l = Some (filesInFolder folderPath l).
Proof.
  unfold filesInFolder.
  induction 1 as [|f l Hf _ IH]; [reflexivity|].
  cbn [filterInFolder List.filter]. unfold keptInFolder.
  unfold effectivePath in Hf. unfold inFolder at 1 2.
  destruct (Js.or (f_path f) (f_filename f)); [|contradiction].
  now rewrite IH.
Qed.

Lemma filterInFolder_None (folderPath : string) (l : list ManifestEntry) :
  filterInFolder folderPath l = None <->
  Exists (fun f => effectivePath f = None) l.
Proof.
  induction l as [|f l IH]; cbn [filterInFolder].
  - split; [discriminate | intros H; inversion H].
  - unfold inFolder, effectivePath in *.
    destruct (Js.or (f_path f) (f_filename f)) as [p|] eqn:E.
    + destruct (filterInFolder folderPath l) as [sel|].
      * split; [discriminate|]. intros H. inversion H; subst.
        -- congruence.
        -- apply IH in H1. discriminate.
      * split; [|reflexivity]. intros _. apply List.Exists_cons_tl.
        now apply IH.
    + split; [|reflexivity]. intros _. now apply List.Exists_cons_hd.
Qed.

Lemma countStatus_zero (st : string) (l : list ManifestEntry) :
  countStatus st l = 0 <-> Forall (fun f => f_status f <> st) l.
Proof.
  unfold countStatus. induction l as [|f l IH]; cbn [List.filter].
  - split; [constructor | reflexivity].
  - unfold hasStatus at 1.
    destruct (String.eqb_spec (f_status f) st) as [E|E]; cbn [length].
    + split; [discriminate|]. intros H. inversion H; subst. contradiction.
    + rewrite IH. split.
      * intros H. now constructor.
      * intros H. now inversion H.
Qed.

Lemma no_local_copy (l : list ManifestEntry) :
  countStatus "found" l = 0 /\ countStatus "mismatch" l = 0 <->
  Forall (fun f => ~ presentLocally f) l.
Proof.
  rewrite !countStatus_zero. unfold presentLocally. split.
  - intros [Hf Hm]. rewrite List.Forall_forall in *.
    intros f Hin [E|E]; [now apply (Hf f Hin) | now apply (Hm f Hin)].
  - intros H. split; rewrite List.Forall_forall in *; intros f Hin E;
      apply (H f Hin); auto.
Qed.

Lemma filterInFolder_kept (folderPath : string) (l sel : list ManifestEntry) :
  filterInFolder folderPath l = Some sel -> sel = filesInFolder folderPath l.
Proof.
  unfold filesInFolder. revert sel.
  induction l as [|f l IH]; intros sel; cbn [filterInFolder List.filter].
  - now intros [= <-].
  - unfold keptInFolder. destruct (inFolder folderPath f) as [b|]; [|discriminate].
    destruct (filterInFolder folderPath l) as [sel'|]; [|discriminate].
    intros [= <-]. specialize (IH sel' eq_refl). subst sel'. reflexivity.
Qed.

Lemma countStatus_sum_le (l : list ManifestEntry) :
  countStatus "found" l + countStatus "missing" l + countStatus "mismatch" l
    <= length l.
Proof.
  unfold countStatus. induction l as [|f l IH]; [reflexivity|].
  cbn [List.filter].
  assert (Hb : exists a b c : bool,
             hasStatus "found" f = a /\ hasStatus "missing" f = b /\
             hasStatus "mismatch" f = c /\
             Nat.b2n a + Nat.b2n b + Nat.b2n c <= 1).
  { unfold hasStatus.
    destruct (String.eqb_spec (f_status f) "found") as [->|_];
      [do 3 eexists; repeat split; cbn; lia|].
    destruct (String.eqb_spec (f_status f) "missing") as [->|_];
      [do 3 eexists; repeat split; cbn; lia|].
    destruct (String.eqb (f_status f) "mismatch");
      do 3 eexists; repeat split; cbn; lia. }
  destruct Hb as (a & b & c & -> & -> & -> & Hone).
  destruct a, b, c; cbn in Hone |- *; lia.
Qed.

Lemma countStatus_pos (st : string) (l : list ManifestEntry) :
  0 < countStatus st l <-> Exists (fun f => f_status f = st) l.
Proof.
  unfold countStatus. induction l as [|f l IH]; cbn [List.filter].
  - split; [cbn; lia | intros H; inversion H].
  - unfold hasStatus at 1.
    destruct (String.eqb_spec (f_status f) st) as [E|E]; cbn [length].
    + split; [intros _; now apply List.Exists_cons_hd | lia].
    + rewrite IH. split.
      * intros H. now apply List.Exists_cons_tl.
      * intros H. inversion H; subst; [contradiction | assumption].
Qed.

Lemma some_local_copy (l : list ManifestEntry) :
  Exists presentLocally l <->
  0 < countStatus "found" l \/ 0 < countStatus "mismatch" l.
Proof.
  rewrite !countStatus_pos. unfold presentLocally.
  rewrite !List.Exists_exists. split.
  - intros (f & Hin & [E|E]); [left | right]; eauto.
  - intros [(f & Hin & E)|(f & Hin & E)]; exists f; auto.
Qed.

Lemma calculate_some_facts (folderPath : string)
  (allFiles : list ManifestEntry) (fs : FolderStats) :
  calculateFolderStatus folderPath allFiles = Some fs ->
  fs_total fs = length (filesInFolder folderPath allFiles) /\
  fs_found fs + fs_missing fs + fs_mismatch fs <= fs_total fs /\
  (fs_status fs = VUnknown <-> filesInFolder folderPath allFiles = []) /\
  (fs_status fs = VMatch <->
     filesInFolder folderPath allFiles <> [] /\
     allStatus "found" (filesInFolder folderPath allFiles)) /\
  (fs_status fs = VMissing <->
     filesInFolder folderPath allFiles <> [] /\
     Forall (fun f => ~ presentLocally f) (filesInFolder folderPath allFiles)) /\
  (fs_status fs = VPartial <->
     ~ allStatus "found" (filesInFolder folderPath allFiles) /\
     Exists presentLocally (filesInFolder folderPath allFiles)) /\
  fs_status fs <> VMismatch /\ fs_status fs <> VLoading.
Proof.
  unfold calculateFolderStatus.
  destruct (filterInFolder folderPath allFiles) as [sel|] eqn:Hsel;
    [|discriminate].
  apply filterInFolder_kept in Hsel. rewrite <- Hsel. clear Hsel.
  pose proof (countStatus_sum_le sel) as Hsum.
  pose proof (countStatus_all "found" sel) as A1.
  pose proof (no_local_copy sel) as A3.
  pose proof (some_local_copy sel) as A5.
  assert (A0 : sel = [] <-> length sel = 0)
    by (destruct sel; cbn; split; congruence).
  rewrite <- A1, <- A3, A5, A0. clear A0 A1 A3 A5.
  set (nf := countStatus "found" sel) in *.
  set (nm := countStatus "missing" sel) in *.
  set (nmm := countStatus "mismatch" sel) in *.
  set (n := length sel) in *.
  destruct (Nat.eqb_spec n 0) as [Hn|Hn].
  - intros [= <-]. cbn [fs_status fs_total fs_found fs_missing fs_mismatch].
    repeat split; intros; try discriminate; try lia.
  - destruct (Nat.eqb_spec nf n) as [Hf|Hf].
    + intros [= <-]. cbn [fs_status fs_total fs_found fs_missing fs_mismatch].
      repeat split; intros; try discriminate; try lia.
    + destruct (Nat.eqb_spec nm n) as [Hm|Hm].
      * intros [= <-].
        cbn [fs_status fs_total fs_found fs_missing fs_mismatch].
        repeat split; intros; try discriminate; try lia.
      * destruct (Nat.ltb_spec 0 nf) as [Hp|Hp];
          destruct (Nat.ltb_spec 0 nmm) as [Hq|Hq]; cbn [orb];
          intros [= <-];
          cbn [fs_status fs_total fs_found fs_missing fs_mismatch];
          repeat split; intros; try discriminate; try lia.
Qed.

(** X1. Whenever the aggregator returns, whatever the statuses are: the
    total is the number of entries filed under the folder and bounds the
    three counts; the verdict is 'unknown' exactly when no entry is filed
    under it, 'match' exactly when there are entries and all are found,
    'missing' exactly when there are entries and none is found or
    mismatched, 'partial' exactly when some entry is found or mismatched but
    not all are found; it is never 'mismatch' nor 'loading'. *)
Theorem folder_status_characterised (folderPath : string)
  (allFiles : list ManifestEntry) (fs : FolderStats) :
  calculateFolderStatus folderPath allFiles = Some fs ->
  fs_total fs = length (filesInFolder folderPath allFiles) /\
  fs_found fs + fs_missing fs + fs_mismatch fs <= fs_total fs /\
  (fs_status fs = VUnknown <-> filesInFolder folderPath allFiles = []) /\
  (fs_status fs = VMatch <->
     filesInFolder folderPath allFiles <> [] /\
     allStatus "found" (filesInFolder folderPath allFiles)) /\
  (fs_status fs = VMissing <->
     filesInFolder folderPath allFiles <> [] /\
     Forall (fun f => ~ presentLocally f) (filesInFolder folderPath allFiles)) /\
  (fs_status fs = VPartial <->
     ~ allStatus "found" (filesInFolder folderPath allFiles) /\
     Exists presentLocally (filesInFolder folderPath allFiles)) /\
  fs_status fs <> VMismatch /\ fs_status fs <> VLoading.
Proof. apply calculate_some_facts. Qed.

Lemma folder_status_characterised_witness :
  fs_status <$> calculateFolderStatus "d" oddManifest = Some VMissing /\
  length (filesInFolder "d" oddManifest) = 2 /\
  Forall (fun f => ~ presentLocally f) (filesInFolder "d" oddManifest).
Proof.
  pose proof (folder_status_characterised "d" oddManifest _ eq_refl)
    as (Ht & _ & _ & _ & Hm & _).
  split; [reflexivity|]. split; [symmetry; exact Ht|].
  apply Hm. reflexivity.
Defined.

Lemma calculate_none_iff (folderPath : string)
  (allFiles : list ManifestEntry) :
  calculateFolderStatus folderPath allFiles = None <->
  Exists (fun f => effectivePath f = None) allFiles.
Proof.
  rewrite <- (filterInFolder_None folderPath).
  unfold calculateFolderStatus.
  destruct (filterInFolder folderPath allFiles) as [sel|];
    [|split; reflexivity].
  split; [|discriminate].
  now destruct (length sel =? 0)%nat.
Qed.

(** X2. The aggregator raises exactly when some manifest entry has neither
    a path nor a filename, whichever folder is asked for. *)
Theorem folder_status_raises (folderPath : string)
  (allFiles : list ManifestEntry) :
  calculateFolderStatus folderPath allFiles = None <->
  Exists (fun f => effectivePath f = None) allFiles.
Proof. apply calculate_none_iff. Qed.

Lemma folder_status_raises_witness :
  calculateFolderStatus "anywhere"
    [entryAt "d/a" "found";
     {| f_path := None; f_filename := None; f_sha256 := None;
        f_status := "found" |}] = None.
Proof.
  apply (proj2 (folder_status_raises "anywhere" _)).
  apply List.Exists_cons_tl, List.Exists_cons_hd. reflexivity.
Defined.

(** ** Nested folders *)

Lemma append_cons (c : ascii) (a b : string) :
  (String c a ++ b = String c (a ++ b))%string.
Proof. reflexivity. Qed.

Lemma append_empty_l (b : string) : (EmptyString ++ b = b)%string.
Proof. reflexivity. Qed.

Lemma prefix_app (a b : string) : String.prefix a (a ++ b) = true.
Proof.
  induction a as [|c a IH].
  - rewrite append_empty_l. now destruct b.
  - rewrite append_cons. cbn [String.prefix].
    destruct (ascii_dec c c); [exact IH | contradiction].
Qed.

Lemma prefix_app_l (a b s : string) :
  String.prefix (a ++ b) s = true -> String.prefix a s = true.
Proof.
  revert s. induction a as [|c a IH]; intros s.
  - intros _. now destruct s.
  - rewrite append_cons.
    destruct s as [|d s]; cbn [String.prefix]; [discriminate|].
    destruct (ascii_dec c d); [apply IH | discriminate].
Qed.

Lemma append_assoc (a b c : string) : ((a ++ b) ++ c = a ++ (b ++ c))%string.
Proof.
  induction a as [|x a IH]; [reflexivity|].
  now rewrite !append_cons, IH.
Qed.

Lemma kept_in_parent (folderPath x : string) (f : ManifestEntry) :
  keptInFolder (folderPath ++ "/" ++ x) f = true ->
  keptInFolder folderPath f = true.
Proof.
  unfold keptInFolder, inFolder.
  destruct (Js.or (f_path f) (f_filename f)) as [p|]; [|discriminate].
  unfold Js.startsWith. intros H. apply orb_true_iff in H.
  apply orb_true_iff. left. destruct H as [H|H].
  - apply prefix_app_l in H.
    rewrite <- append_assoc in H. now apply prefix_app_l in H.
  - apply String.eqb_eq in H. subst p.
    rewrite <- append_assoc. apply prefix_app.
Qed.

Lemma filesInFolder_nested (folderPath x : string) (l : list ManifestEntry) :
  filesInFolder (folderPath ++ "/" ++ x) l
    = List.filter (keptInFolder (folderPath ++ "/" ++ x))
        (filesInFolder folderPath l).
Proof.
  unfold filesInFolder. induction l as [|f l IH]; [reflexivity|].
  cbn [List.filter].
  destruct (keptInFolder (folderPath ++ "/" ++ x) f) eqn:E.
  - rewrite (kept_in_parent _ _ _ E). cbn [List.filter]. rewrite E.
    now rewrite IH.
  - destruct (keptInFolder folderPath f); [cbn [List.filter]; rewrite E|];
      exact IH.
Qed.

Lemma Forall_filter {A} (P : A -> Prop) (g : A -> bool) (l : list A) :
  Forall P l -> Forall P (List.filter g l).
Proof.
  intros H. rewrite List.Forall_forall in *. intros a Ha.
  apply H. now apply List.filter_In in Ha.
Qed.

Lemma Exists_filter {A} (P : A -> Prop) (g : A -> bool) (l : list A) :
  Exists P (List.filter g l) -> Exists P l.
Proof.
  rewrite !List.Exists_exists. intros (a & Ha & Hp).
  exists a. split; [|exact Hp]. now apply List.filter_In in Ha.
Qed.

(** X3. A folder nested in another is aggregated over a part of the outer
    folder's entries: whenever the outer folder gets a result so does the
    inner one, with no larger total; inside a 'match' folder every folder is
    'match' or 'unknown', inside a 'missing' one 'missing' or 'unknown',
    inside an 'unknown' one 'unknown', and a 'partial' folder makes every
    folder around it 'partial'. *)
Theorem nested_folder_status (folderPath x : string)
  (allFiles : list ManifestEntry) (outer : FolderStats) :
  calculateFolderStatus folderPath allFiles = Some outer ->
  exists inner,
    calculateFolderStatus (folderPath ++ "/" ++ x) allFiles = Some inner /\
    fs_total inner <= fs_total outer /\
    (fs_status outer = VMatch ->
     fs_status inner = VMatch \/ fs_status inner = VUnknown) /\
    (fs_status outer = VMissing ->
     fs_status inner = VMissing \/ fs_status inner = VUnknown) /\
    (fs_status outer = VUnknown -> fs_status inner = VUnknown) /\
    (fs_status inner = VPartial -> fs_status outer = VPartial).
Proof.
  intros Ho.
  destruct (calculateFolderStatus (folderPath ++ "/" ++ x) allFiles)
    as [inner|] eqn:Hi.
  2:{ apply calculate_none_iff in Hi.
      apply (calculate_none_iff folderPath) in Hi. congruence. }
  exists inner. split; [reflexivity|].
  destruct (calculate_some_facts _ _ _ Ho)
    as (Ot & _ & Ou & Om & Omi & Op & _).
  destruct (calculate_some_facts _ _ _ Hi)
    as (It & _ & Iu & Im & Imi & Ip & _).
  rewrite (filesInFolder_nested folderPath x allFiles) in *.
  set (so := filesInFolder folderPath allFiles) in *.
  set (si := List.filter _ so) in *.
  assert (Hlen : length si <= length so) by apply List.filter_length_le.
  assert (Hdec : si = [] \/ si <> []) by (destruct si; [left | right]; congruence).
  split; [lia|]. repeat split.
  - intros E. apply Om in E. destruct E as [_ Hall].
    destruct Hdec as [Hd|Hd]; [right; now apply Iu | left].
    apply Im. split; [exact Hd|]. now apply Forall_filter.
  - intros E. apply Omi in E. destruct E as [_ Hall].
    destruct Hdec as [Hd|Hd]; [right; now apply Iu | left].
    apply Imi. split; [exact Hd|]. now apply Forall_filter.
  - intros E. apply Ou in E. apply Iu. subst si. now rewrite E.
  - intros E. apply Ip in E. destruct E as [Hn He]. apply Op. split.
    + intros Hall. apply Hn. now apply Forall_filter.
    + now apply Exists_filter in He.
Qed.

Lemma nested_folder_status_witness :
  exists inner,
    calculateFolderStatus ("unet" ++ "/" ++ "blocks") sampleManifest
      = Some inner /\ fs_status inner = VUnknown.
Proof.
  destruct (nested_folder_status "unet" "blocks" sampleManifest _ eq_refl)
    as (inner & Hc & _).
  exists inner. split; [exact Hc|].
  assert (E : Some inner = Some {| fs_status := VUnknown; fs_found := 0;
                                   fs_missing := 0; fs_mismatch := 0;
                                   fs_total := 0 |})
    by (rewrite <- Hc; reflexivity).
  now injection E as ->.
Defined.

(** ** Enrichment follows the order of the manifest *)

Lemma find_first {A} (p : A -> bool) (pre post : list A) (x : A) :
  Forall (fun y => p y = false) pre -> p x = true ->
  List.find p (pre ++ x :: post)%list = Some x.
Proof.
  induction 1 as [|y pre Hy _ IH]; intros Hx; cbn.
  - now rewrite Hx.
  - rewrite Hy. now apply IH.
Qed.

Lemma find_none {A} (p : A -> bool) (l : list A) :
  Forall (fun y => p y = false) l -> List.find p l = None.
Proof.
  induction 1 as [|y l Hy _ IH]; cbn; [reflexivity|]. now rewrite Hy.
Qed.

(** X4. For a reference without a hash, only the first manifest entry that
    matches it (by full path, by filename or by path suffix) is consulted:
    its hash is copied if it has one, and if it has none the reference stays
    without a hash whatever entries follow; without any matching entry the
    reference is unchanged. *)
Theorem enrichment_first_match (rd : RepoData) (r : FileRow)
  (pre post : list ManifestEntry) (f : ManifestEntry) :
  Js.truthy (row_sha256 r) = false ->
  (files rd = Some (pre ++ f :: post)%list ->
   Forall (fun g => repoFileMatches r g = false) pre ->
   repoFileMatches r f = true ->
   (Js.truthy (f_sha256 f) = true ->
    fst (enrichRow (Some rd) r) = setSha256 r (f_sha256 f) /\
    req_sha256 (snd (enrichRow (Some rd) r)) = f_sha256 f) /\
   (Js.truthy (f_sha256 f) = false ->
    fst (enrichRow (Some rd) r) = r /\
    req_sha256 (snd (enrichRow (Some rd) r)) = row_sha256 r)) /\
  (forall fl, files rd = Some fl ->
              Forall (fun g => repoFileMatches r g = false) fl ->
              fst (enrichRow (Some rd) r) = r).
Proof.
  intros Hno. split.
  - intros Hfl Hpre Hf. unfold enrichRow. rewrite Hno, Hfl.
    rewrite (find_first _ pre post f Hpre Hf).
    split; intros ->; split; reflexivity.
  - intros fl Hfl Hall. unfold enrichRow. rewrite Hno, Hfl.
    now rewrite (find_none _ fl Hall).
Qed.

Lemma enrichment_first_match_witness :
  fst (enrichRow (Some (sampleRepo "o/r" twinManifest)) twinRow) = twinRow /\
  row_sha256 (fst (enrichRow (Some (sampleRepo "o/r" (List.rev twinManifest)))
                     twinRow)) = Some "ab12".
Proof.
  split.
  - apply (proj1 (enrichment_first_match (sampleRepo "o/r" twinManifest)
                    twinRow [] [hashedEntry "unet/Model.BIN" "ab12"]
                    _ eq_refl) eq_refl (List.Forall_nil _) eq_refl).
    reflexivity.
  - reflexivity.
Defined.

(** ** Lookup keys are normalised *)












(** ** Escaping *)

Lemma append_empty_r (a : string) : (a ++ EmptyString = a)%string.
Proof.
  induction a as [|c a IH]; [reflexivity|]. now rewrite append_cons, IH.
Qed.

Lemma replaceAll_app (c : ascii) (rep a b : string) :
  replaceAll c rep (a ++ b) = (replaceAll c rep a ++ replaceAll c rep b)%string.
Proof.
  induction a as [|x a IH]; [reflexivity|].
  rewrite append_cons. cbn [replaceAll].
  destruct (Ascii.eqb x c).
  - now rewrite IH, append_assoc.
  - now rewrite append_cons, IH.
Qed.

Lemma escape_one (c : ascii) :
  replaceAll "'" "&#39;"
    (replaceAll dquote "&quot;"
       (replaceAll ">" "&gt;"
          (replaceAll "<" "&lt;"
             (replaceAll "&" "&amp;" (String c EmptyString)))))
  = escapeChar c.
Proof.
  destruct c as [[] [] [] [] [] [] [] []]; reflexivity.
Qed.

Lemma escapeHtml_chain (s : string) :
  replaceAll "'" "&#39;"
    (replaceAll dquote "&quot;"
       (replaceAll ">" "&gt;"
          (replaceAll "<" "&lt;" (replaceAll "&" "&amp;" s))))
  = escapeEach s.
Proof.
  induction s as [|c s IH]; [reflexivity|].
  cbn [escapeEach]. rewrite <- IH, <- (escape_one c), <- !replaceAll_app.
  reflexivity.
Qed.

Lemma hasChar_app (c : ascii) (a b : string) :
  hasChar c (a ++ b) = hasChar c a || hasChar c b.
Proof.
  induction a as [|x a IH]; [reflexivity|].
  rewrite append_cons. cbn [hasChar]. now rewrite IH, orb_assoc.
Qed.

Lemma escapeChar_safe (c : ascii) :
  hasChar "<" (escapeChar c) = false /\ hasChar ">" (escapeChar c) = false /\
  hasChar dquote (escapeChar c) = false /\ hasChar "'" (escapeChar c) = false.
Proof.
  destruct c as [[] [] [] [] [] [] [] []]; repeat split.
Qed.

Lemma escapeEach_safe (s : string) :
  hasChar "<" (escapeEach s) = false /\ hasChar ">" (escapeEach s) = false /\
  hasChar dquote (escapeEach s) = false /\ hasChar "'" (escapeEach s) = false.
Proof.
  induction s as [|c s (A & B & C & D)]; [repeat split|].
  cbn [escapeEach]. rewrite !hasChar_app, A, B, C, D.
  destruct (escapeChar_safe c) as (-> & -> & -> & ->). repeat split.
Qed.

Lemma escapeHtml_facts (str : option string) :
  escapeHtml str = escapeEach (Js.orEmpty str) /\
  hasChar "<" (escapeHtml str) = false /\
  hasChar ">" (escapeHtml str) = false /\
  hasChar dquote (escapeHtml str) = false /\
  hasChar "'" (escapeHtml str) = false /\
  escapeHtml None = EmptyString /\
  escapeHtml (Some EmptyString) = EmptyString.
Proof.
  assert (E : escapeHtml str = escapeEach (Js.orEmpty str)).
  { unfold escapeHtml. destruct (Js.truthy str) eqn:T; cbn [negb].
    - apply escapeHtml_chain.
    - now rewrite (orEmpty_falsy _ T). }
  split; [exact E|]. rewrite E.
  destruct (escapeEach_safe (Js.orEmpty str)) as (A & B & C & D).
  repeat split; assumption.
Qed.

(** X7. The five chained replacements of [escapeHtml] amount to escaping
    each character once (the ampersands of the entities it writes are not
    escaped again), and the result contains no angle bracket, double quote
    or apostrophe; an absent or empty value gives the empty string. *)
Theorem escapeHtml_single_pass (str : option string) :
  escapeHtml str = escapeEach (Js.orEmpty str) /\
  hasChar "<" (escapeHtml str) = false /\
  hasChar ">" (escapeHtml str) = false /\
  hasChar dquote (escapeHtml str) = false /\
  hasChar "'" (escapeHtml str) = false /\
  escapeHtml None = EmptyString /\
  escapeHtml (Some EmptyString) = EmptyString.
Proof. apply escapeHtml_facts. Qed.

Lemma unescape_one (c : ascii) (r : string) :
  unescapeHtml (escapeChar c ++ r) = String c (unescapeHtml r).
Proof.
  destruct c as [[] [] [] [] [] [] [] []]; reflexivity.
Qed.

Lemma unescape_escapeEach (s : string) : unescapeHtml (escapeEach s) = s.
Proof.
  induction s as [|c s IH]; [reflexivity|].
  cbn [escapeEach]. now rewrite unescape_one, IH.
Qed.

(** X8. Escaping loses nothing: reading the five entities back returns the
    original text, so two different texts are never escaped to the same
    one. *)
Theorem escapeHtml_round_trip (s t : string) :
  unescapeHtml (escapeHtml (Some s)) = s /\
  (escapeHtml (Some s) = escapeHtml (Some t) -> s = t).
Proof.
  assert (R : forall u, unescapeHtml (escapeHtml (Some u)) = u).
  { intros u. rewrite (proj1 (escapeHtml_facts (Some u))).
    rewrite orEmpty_Some. apply unescape_escapeEach. }
  split; [apply R|]. intros E. rewrite <- (R s), <- (R t). now rewrite E.
Qed.

Lemma escapeHtml_round_trip_witness :
  unescapeHtml (escapeHtml (Some "a<b & 'c'")) = "a<b & 'c'" /\
  "a<b & 'c'" = "a<b & 'c'".
Proof.
  split.
  - apply (proj1 (escapeHtml_round_trip "a<b & 'c'" "a<b & 'c'")).
  - apply (proj2 (escapeHtml_round_trip "a<b & 'c'" "a<b & 'c'")).
    reflexivity.
Defined.

(** ** The repo context resolver *)

Lemma split_not_nil (sep : ascii) (s : string) : Js.split sep s <> [].
Proof.
  destruct s as [|c s]; cbn; [discriminate|].
  destruct (Ascii.eqb c sep); [discriminate|].
  destruct (Js.split sep s); discriminate.
Qed.

Lemma split_segment (seg rest : string) :
  hasChar "/" seg = false ->
  Js.split "/" (seg ++ String "/" rest) = seg :: Js.split "/" rest.
Proof.
  induction seg as [|c seg IH]; intros H.
  - reflexivity.
  - cbn [hasChar] in H. apply orb_false_iff in H. destruct H as [Hc Hs].
    rewrite append_cons. cbn [Js.split]. rewrite Hc, (IH Hs). reflexivity.
Qed.

Lemma split_no_slash (seg : string) :
  hasChar "/" seg = false -> Js.split "/" seg = [seg].
Proof.
  induction seg as [|c seg IH]; intros H; [reflexivity|].
  cbn [hasChar] in H. apply orb_false_iff in H. destruct H as [Hc Hs].
  cbn [Js.split]. rewrite Hc, (IH Hs). reflexivity.
Qed.

Lemma split_concat (s : string) (segs : list string) :
  Forall segment (s :: segs) ->
  Js.split "/" (String.concat "/" (s :: segs)) = s :: segs.
Proof.
  revert s. induction segs as [|t segs IH]; intros s H.
  - inversion H as [|? ? [_ Hs] _]; subst. cbn [String.concat].
    now apply split_no_slash.
  - inversion H as [|? ? [_ Hs] Hrest]; subst.
    change (String.concat "/" (s :: t :: segs))
      with (s ++ String "/" (String.concat "/" (t :: segs)))%string.
    rewrite (split_segment _ _ Hs). f_equal. now apply IH.
Qed.

Lemma filter_segments (segs : list string) :
  Forall segment segs -> List.filter Js.nonEmpty segs = segs.
Proof.
  induction 1 as [|s segs [Hn _] _ IH]; [reflexivity|].
  cbn [List.filter]. now rewrite Hn, IH.
Qed.

(** the split and filter of the resolver read the segments back *)
Lemma parts_of_path (segs : list string) :
  Forall segment segs ->
  List.filter Js.nonEmpty (Js.split "/" (pathOf segs)) = segs.
Proof.
  intros H. unfold pathOf.
  change ("/" ++ String.concat "/" segs)%string
    with (String "/" (String.concat "/" segs)).
  cbn [Js.split Ascii.eqb Bool.eqb List.filter Js.nonEmpty].
  destruct segs as [|s segs]; [reflexivity|].
  rewrite (split_concat s segs H). now apply filter_segments.
Qed.

Lemma segment_lookup (segs : list string) (j : nat) (x : string) :
  Forall segment segs -> segs !! j = Some x -> Js.nonEmpty x = true.
Proof.
  intros H E. rewrite List.Forall_forall in H.
  apply (H x). apply list_elem_of_In. eapply list_elem_of_lookup_2. exact E.
Qed.

Lemma getRepoInfo_segments (segs : list string) :
  Forall segment segs ->
  getRepoInfoFromUrl (atPath segs) =
    if (length segs <? prefixLength segs + 2)%nat then None
    else match segs !! prefixLength segs, segs !! (prefixLength segs + 1) with
         | Some owner, Some repo =>
             Some {| repoId := owner ++ "/" ++ repo; repoType := kindOf segs;
                     revision := revisionOf segs |}
         | _, _ => None
         end.
Proof.
  intros H. unfold getRepoInfoFromUrl. cbn [atPath pathname].
  rewrite (parts_of_path segs H). unfold revisionOf.
  destruct segs as [|s segs]; [reflexivity|].
  cbn [lookup list_lookup prefixLength kindOf Js.seq].
  destruct (String.eqb s "datasets") eqn:Ed; cbn [orb].
  - destruct (length (s :: segs) <? 1 + 2)%nat; [reflexivity|].
    destruct ((s :: segs) !! 1) as [owner|]; [|reflexivity].
    destruct ((s :: segs) !! (1 + 1)) as [repo|]; [|reflexivity].
    destruct (indexOf "tree" (s :: segs)) as [i|]; [|reflexivity].
    destruct ((s :: segs) !! (i + 1)) as [rev|] eqn:Er; [|reflexivity].
    pose proof (segment_lookup _ _ _ H Er). now destruct rev.
  - destruct (String.eqb s "spaces") eqn:Es.
    + destruct (length (s :: segs) <? 1 + 2)%nat; [reflexivity|].
      destruct ((s :: segs) !! 1) as [owner|]; [|reflexivity].
      destruct ((s :: segs) !! (1 + 1)) as [repo|]; [|reflexivity].
      destruct (indexOf "tree" (s :: segs)) as [i|]; [|reflexivity].
      destruct ((s :: segs) !! (i + 1)) as [rev|] eqn:Er; [|reflexivity].
      pose proof (segment_lookup _ _ _ H Er). now destruct rev.
    + destruct (length (s :: segs) <? 0 + 2)%nat; [reflexivity|].
      destruct ((s :: segs) !! 0) as [owner|]; [|reflexivity].
      destruct ((s :: segs) !! (0 + 1)) as [repo|]; [|reflexivity].
      destruct (indexOf "tree" (s :: segs)) as [i|]; [|reflexivity].
      destruct ((s :: segs) !! (i + 1)) as [rev|] eqn:Er; [|reflexivity].
      pose proof (segment_lookup _ _ _ H Er). now destruct rev.
Qed.

Lemma split_concat_any (s : string) (segs : list string) :
  Forall (fun p => hasChar "/" p = false) (s :: segs) ->
  Js.split "/" (String.concat "/" (s :: segs)) = s :: segs.
Proof.
  revert s. induction segs as [|t segs IH]; intros s H.
  - inversion H as [|? ? Hs _]; subst. cbn [String.concat].
    now apply split_no_slash.
  - inversion H as [|? ? Hs Hrest]; subst.
    change (String.concat "/" (s :: t :: segs))
      with (s ++ String "/" (String.concat "/" (t :: segs)))%string.
    rewrite (split_segment _ _ Hs). f_equal. now apply IH.
Qed.

Lemma concat_snoc_empty (s : string) (segs : list string) :
  String.concat "/" ((s :: segs) ++ [EmptyString])%list
    = (String.concat "/" (s :: segs) ++ "/")%string.
Proof.
  revert s. induction segs as [|t segs IH]; intros s.
  - cbn [app String.concat]. now rewrite append_empty_r.
  - change (String.concat "/" ((s :: t :: segs) ++ [EmptyString])%list)
      with (s ++ String "/"
              (String.concat "/" ((t :: segs) ++ [EmptyString])%list))%string.
    rewrite IH.
    change (String.concat "/" (s :: t :: segs))
      with (s ++ String "/" (String.concat "/" (t :: segs)))%string.
    now rewrite append_assoc, append_cons.
Qed.

Lemma parts_of_path_slash (segs : list string) :
  Forall segment segs ->
  List.filter Js.nonEmpty (Js.split "/" (pathOf segs ++ "/")) = segs.
Proof.
  intros H. unfold pathOf.
  destruct segs as [|s segs]; [reflexivity|].
  change (("/" ++ String.concat "/" (s :: segs)) ++ "/")%string
    with (String "/" (String.concat "/" (s :: segs) ++ "/"))%string.
  rewrite <- concat_snoc_empty.
  cbn [Js.split Ascii.eqb Bool.eqb].
  destruct ((s :: segs) ++ [EmptyString])%list as [|a l] eqn:E;
    [discriminate|].
  rewrite split_concat_any.
  - rewrite <- E.
    change (List.filter Js.nonEmpty
              (EmptyString :: ((s :: segs) ++ [EmptyString])%list))
      with (List.filter Js.nonEmpty ((s :: segs) ++ [EmptyString])%list).
    rewrite List.filter_app.
    change (List.filter Js.nonEmpty [EmptyString]) with (@nil string).
    rewrite List.app_nil_r. now apply filter_segments.
  - rewrite <- E. apply List.Forall_app. split.
    + eapply List.Forall_impl; [|exact H]. now intros p [_ Hp].
    + now constructor.
Qed.

(** X9. On a pathname made of segments, the resolver fails exactly when
    fewer than two segments follow the optional [datasets] or [spaces]
    prefix; otherwise the repository is named by the two segments after the
    prefix and typed by the prefix. A trailing slash changes nothing. *)
Theorem resolver_on_segments (segs : list string) :
  Forall segment segs ->
  (getRepoInfoFromUrl (atPath segs) = None <->
   length segs < prefixLength segs + 2) /\
  (forall info, getRepoInfoFromUrl (atPath segs) = Some info ->
     exists owner repo,
       segs !! prefixLength segs = Some owner /\
       segs !! (prefixLength segs + 1) = Some repo /\
       repoId info = (owner ++ "/" ++ repo)%string /\
       repoType info = kindOf segs) /\
  getRepoInfoFromUrl {| href := href (atPath segs);
                        pathname := pathOf segs ++ "/" |}
    = getRepoInfoFromUrl (atPath segs).
Proof.
  intros H. split; [|split].
  - rewrite (getRepoInfo_segments segs H).
    destruct (Nat.ltb_spec (length segs) (prefixLength segs + 2)) as [L|L].
    + split; [intros _; exact L | reflexivity].
    + destruct (lookup_lt_is_Some_2 segs (prefixLength segs)) as [o Ho];
        [lia|].
      destruct (lookup_lt_is_Some_2 segs (prefixLength segs + 1)) as [r Hr];
        [lia|].
      rewrite Ho, Hr. split; [discriminate | lia].
  - intros info. rewrite (getRepoInfo_segments segs H).
    destruct (length segs <? prefixLength segs + 2)%nat; [discriminate|].
    destruct (segs !! prefixLength segs) as [o|]; [|discriminate].
    destruct (segs !! (prefixLength segs + 1)) as [r|]; [|discriminate].
    intros [= <-]. exists o, r. repeat split.
  - unfold getRepoInfoFromUrl. cbn [pathname atPath].
    now rewrite (parts_of_path_slash segs H), (parts_of_path segs H).
Qed.

Lemma resolver_on_segments_witness :
  getRepoInfoFromUrl (atPath ["datasets"; "owner"]) = None /\
  repoId <$> getRepoInfoFromUrl (atPath ["spaces"; "owner"; "demo"; "tree"])
    = Some "owner/demo".
Proof.
  split.
  - apply (proj1 (resolver_on_segments ["datasets"; "owner"]
                    ltac:(repeat constructor))).
    cbn. lia.
  - reflexivity.
Defined.

Lemma indexOf_none (x : string) (l : list string) :
  Forall (fun y => y <> x) l -> indexOf x l = None.
Proof.
  induction 1 as [|y l Hy _ IH]; [reflexivity|]. cbn [indexOf].
  destruct (String.eqb_spec y x); [contradiction|]. now rewrite IH.
Qed.

Lemma indexOf_first (x : string) (pre post : list string) :
  Forall (fun y => y <> x) pre ->
  indexOf x (pre ++ x :: post)%list = Some (length pre).
Proof.
  induction 1 as [|y pre Hy _ IH]; cbn [app indexOf length].
  - now rewrite String.eqb_refl.
  - destruct (String.eqb_spec y x); [contradiction|]. now rewrite IH.
Qed.

(** X10. The revision of a resolved context is the segment that follows the
    first segment named [tree], wherever that one stands (be it the owner or
    the repository name), and [main] when no segment is named [tree] or
    nothing follows it. *)
Theorem resolver_revision (segs : list string) (info : RepoInfo) :
  Forall segment segs ->
  getRepoInfoFromUrl (atPath segs) = Some info ->
  (Forall (fun p => p <> "tree") segs -> revision info = "main") /\
  (forall pre rev post,
     segs = (pre ++ "tree" :: rev :: post)%list ->
     Forall (fun p => p <> "tree") pre -> revision info = rev) /\
  (forall pre,
     segs = (pre ++ ["tree"])%list ->
     Forall (fun p => p <> "tree") pre -> revision info = "main").
Proof.
  intros H. rewrite (getRepoInfo_segments segs H).
  destruct (length segs <? prefixLength segs + 2)%nat; [discriminate|].
  destruct (segs !! prefixLength segs) as [o|]; [|discriminate].
  destruct (segs !! (prefixLength segs + 1)) as [r|]; [|discriminate].
  intros [= <-]. cbn [revision]. unfold revisionOf. repeat split.
  - intros Hno. now rewrite (indexOf_none _ _ Hno).
  - intros pre rev post -> Hpre. rewrite (indexOf_first _ pre _ Hpre).
    rewrite lookup_app_r by lia.
    now replace (length pre + 1 - length pre) with 1 by lia.
  - intros pre -> Hpre. rewrite (indexOf_first _ pre _ Hpre).
    rewrite lookup_app_r by lia.
    now replace (length pre + 1 - length pre) with 1 by lia.
Qed.

Lemma resolver_revision_witness :
  revision <$> getRepoInfoFromUrl (atPath ["tree"; "v2"; "blob"; "main"])
    = Some "v2".
Proof.
  destruct (getRepoInfoFromUrl (atPath ["tree"; "v2"; "blob"; "main"]))
    as [info|] eqn:E; [|discriminate E].
  cbn. f_equal.
  apply (proj1 (proj2 (resolver_revision ["tree"; "v2"; "blob"; "main"] info
                         ltac:(repeat constructor) E))
           [] "v2" ["blob"; "main"] eq_refl (List.Forall_nil _)).
Defined.

(** ** Loops over rows as one rewriting of the document *)

Lemma update_middle (done rest : list Elem) (e : Elem) (v : Verdict) :
  updateFileIcon (done ++ e :: rest) (length done) v
    = (done ++ setIcon (Some v) e :: rest)%list.
Proof.
  unfold updateFileIcon. induction done as [|d done IH]; [reflexivity|].
  cbn. f_equal. exact IH.
Qed.

Lemma applyUpdates_from (vs : list (option Verdict)) :
  forall done rest : list Elem,
    length vs = length rest ->
    applyUpdates (updatesFrom (length done) vs) (done ++ rest)
      = (done ++ zip_with applyIcon vs rest)%list.
Proof.
  unfold applyUpdates.
  induction vs as [|o vs IH]; intros done rest Hlen.
  - destruct rest; [reflexivity | discriminate].
  - destruct rest as [|e rest]; [discriminate|].
    injection Hlen as Hlen. destruct o as [v|]; cbn [updatesFrom fold_left].
    + cbn [fst snd]. rewrite update_middle.
      specialize (IH (done ++ [setIcon (Some v) e])%list rest Hlen).
      rewrite length_app, Nat.add_1_r, <- List.app_assoc in IH.
      cbn [app] in IH. rewrite IH. cbn [zip_with applyIcon].
      now rewrite <- List.app_assoc.
    + specialize (IH (done ++ [e])%list rest Hlen).
      rewrite length_app, Nat.add_1_r, <- List.app_assoc in IH.
      cbn [app] in IH. rewrite IH. cbn [zip_with applyIcon].
      now rewrite <- List.app_assoc.
Qed.

Lemma zip_with_maps {A} (sel : A -> option Verdict) (h : A -> Elem)
  (l : list A) :
  zip_with applyIcon (map sel l) (map h l)
    = map (fun a => applyIcon (sel a) (h a)) l.
Proof.
  induction l as [|a l IH]; [reflexivity|]. cbn. now rewrite IH.
Qed.

(** updates read off a list [l], applied to a document built from [l] *)
Lemma applyUpdates_map {A} (sel : A -> option Verdict) (h : A -> Elem)
  (l : list A) :
  applyUpdates (updatesFrom 0 (map sel l)) (map h l)
    = map (fun a => applyIcon (sel a) (h a)) l.
Proof.
  pose proof (applyUpdates_from (map sel l) [] (map h l)) as H.
  cbn [length app] in H. rewrite H by now rewrite !length_map.
  apply zip_with_maps.
Qed.






Lemma folderRows_updates (g : string -> Verdict) (k : nat) (pg : list Elem) :
  map (fun f => (folder_element f, g (folderPath f))) (folderRowsFrom k pg)
    = updatesFrom k (map (selFolder g) pg).
Proof.
  revert k. induction pg as [|e pg IH]; intros k; [reflexivity|].
  cbn [folderRowsFrom map updatesFrom]. unfold selFolder at 1.
  destruct (el_link e) as [fn fp|nm pth]; [apply IH|].
  destruct (hfcFolderProcessed e); [apply IH|].
  cbn [map]. now rewrite IH.
Qed.





Lemma classifyFolders_updates (allFiles : list ManifestEntry)
  (folders : list FolderRow) (pg pg' : list Elem) :
  classifyFolders allFiles folders pg = (Returned, pg') ->
  pg' = applyUpdates
          (map (fun f => (folder_element f, statusOr allFiles (folderPath f)))
               folders) pg /\
  (folders <> [] -> forall path, calculateFolderStatus path allFiles <> None).
Proof.
  revert pg. induction folders as [|f folders IH]; intros pg.
  - cbn. intros [= <-]. split; [reflexivity | congruence].
  - cbn [classifyFolders]. unfold applyUpdates. cbn [map fold_left fst snd].
    destruct (calculateFolderStatus (folderPath f) allFiles) as [fs|] eqn:E;
      [|discriminate].
    assert (Es : statusOr allFiles (folderPath f) = fs_status fs)
      by (unfold statusOr; now rewrite E).
    rewrite Es.
    intros H. destruct (IH _ H) as [Hpg _]. split; [exact Hpg|].
    intros _ path Hp.
    assert (Hx : Exists (fun g => effectivePath g = None) allFiles).
    { unfold calculateFolderStatus in Hp.
      destruct (filterInFolder path allFiles) as [sel|] eqn:Hs.
      - now destruct (length sel =? 0)%nat.
      - now apply (filterInFolder_None path). }
    apply (filterInFolder_None (folderPath f)) in Hx.
    unfold calculateFolderStatus in E. now rewrite Hx in E.
Qed.




(** the matching loop, split into what it draws and what it counts *)
Lemma matchRow_fold (res : gmap string LookupResult) (rows : list FileRow)
  (s : Sys) :
  page (fold_left (matchRow res) rows s)
    = applyUpdates (map (fun r => (row_element r, rowVerdict res r)) rows)
        (page s) /\
  stats (state (fold_left (matchRow res) rows s))
    = fold_left (fun x r => countVerdict (rowVerdict res r) x) rows
        (stats (state s)) /\
  repoData (state (fold_left (matchRow res) rows s)) = repoData (state s) /\
  connected (state (fold_left (matchRow res) rows s)) = connected (state s) /\
  isScanning (fold_left (matchRow res) rows s) = isScanning s /\
  location (fold_left (matchRow res) rows s) = location s.
Proof.
  revert s. induction rows as [|r rows IH]; intros s; [repeat split|].
  cbn [fold_left map]. destruct (IH (matchRow res s r)) as (A & B & C & D & E & F).
  rewrite A, B, C, D, E, F. repeat split.
Qed.















Lemma classify_no_throw (allFiles : list ManifestEntry)
  (folders : list FolderRow) (pg : list Elem) :
  (forall path, calculateFolderStatus path allFiles <> None) ->
  fst (classifyFolders allFiles folders pg) = Returned.
Proof.
  intros Hok. revert pg. induction folders as [|f folders IH]; intros pg;
    [reflexivity|].
  cbn [classifyFolders].
  destruct (calculateFolderStatus (folderPath f) allFiles) eqn:E;
    [apply IH | now apply Hok in E].
Qed.

(** an exception of the aggregator comes before any folder icon is drawn *)
Lemma classify_threw (allFiles : list ManifestEntry)
  (folders : list FolderRow) (pg pg' : list Elem) :
  classifyFolders allFiles folders pg = (Threw, pg') -> pg' = pg.
Proof.
  destruct folders as [|f folders]; [discriminate|].
  cbn [classifyFolders].
  destruct (calculateFolderStatus (folderPath f) allFiles) eqn:E.
  - intros H.
    assert (Hok : forall path, calculateFolderStatus path allFiles <> None).
    { intros path Hp. apply calculate_none_iff in Hp.
      apply (calculate_none_iff (folderPath f)) in Hp. congruence. }
    pose proof (classify_no_throw allFiles folders
                  (updateFileIcon pg (folder_element f) (fs_status f0)) Hok)
      as Hr.
    rewrite H in Hr. discriminate.
  - now intros [= <-].
Qed.







Lemma iconAt_map (f : Elem -> Elem) (pg : list Elem) (i : nat) (e : Elem) :
  pg !! i = Some e -> iconAt (map f pg) i = el_icon (f e).
Proof.
  intros H. unfold iconAt. now rewrite list_lookup_fmap, H.
Qed.

Lemma linkAt_Some (pg : list Elem) (i : nat) (l : Link) :
  linkAt pg i = Some l -> exists e, pg !! i = Some e /\ el_link e = l.
Proof.
  unfold linkAt. destruct (pg !! i) as [e|]; [|discriminate].
  intros [= <-]. now exists e.
Qed.









(** ** Rows are found once *)





(** ** A pass that raises *)







(** ** The manifest cache along a pass *)

Lemma finishFiles_cache results rows s :
  repoData (state (outcomeSys (finishFiles results rows s)))
    = repoData (state s).
Proof.
  destruct results as [res|]; cbn; [|reflexivity].
  now destruct (matchRow_fold res rows s) as (_ & _ & C & _).
Qed.

Lemma checkRows_cache rows s :
  repoData (state (outcomeSys (checkRows rows s))) = repoData (state s).
Proof.
  unfold checkRows. destruct (0 <? length rows)%nat; [|reflexivity].
  cbn [state withState connected setStats].
  destruct (connected (state s)); [reflexivity|].
  now rewrite finishFiles_cache.
Qed.

Lemma updateFolders_cache rows folders s :
  repoData (state (outcomeSys (updateFolders rows folders s)))
    = repoData (state s).
Proof.
  unfold updateFolders. destruct (repoFiles (state s)) as [allFiles|].
  - destruct (classifyFolders allFiles folders (page s)) as [[] pg];
      [|reflexivity].
    now rewrite checkRows_cache.
  - now rewrite checkRows_cache.
Qed.

Lemma cacheKept_after (srv : Server) (s0 : Sys) (o : Outcome) :
  match o with Suspend AwaitStatus _ | Suspend (AwaitRepo _ _ _) _ => False
          | _ => True end ->
  cacheAfter srv s0 (outcomeSys o) -> cacheKept srv s0 o.
Proof.
  destruct o as [[| |] s|c s]; cbn; intros H; try contradiction; auto.
Qed.

Lemma updateFolders_shape rows folders s :
  match updateFolders rows folders s with
  | Suspend AwaitStatus _ | Suspend (AwaitRepo _ _ _) _ => False
  | _ => True
  end.
Proof.
  unfold updateFolders, checkRows.
  destruct (repoFiles (state s)) as [allFiles|].
  - destruct (classifyFolders allFiles folders (page s)) as [[] pg];
      [|exact I].
    destruct (0 <? length rows)%nat; [|exact I].
    cbn [state withState connected setStats withPage].
    destruct (connected (state s)); [exact I|]. exact I.
  - destruct (0 <? length rows)%nat; [|exact I].
    cbn [state withState connected setStats withPage].
    destruct (connected (state s)); exact I.
Qed.

Lemma resume_cacheKept (srv : Server) (s0 : Sys) (k : Susp) (s : Sys) :
  cacheKept srv s0 (Suspend k s) -> cacheKept srv s0 (resume srv k s).
Proof.
  destruct k as [|rows folders req|rows fls]; cbn [resume cacheKept].
  - intros [Hrd Hloc]. unfold after_status.
    set (s1 := withState s (checkServerStatus (api_status srv) (state s))).
    assert (Hrd1 : repoData (state s1) = repoData (state s0))
      by (subst s1; destruct (api_status srv); exact Hrd).
    destruct (negb (connected (state s1))).
    { cbn [finally cacheKept]. unfold cacheAfter.
      change (state (withScanning s1 false)) with (state s1). rewrite Hrd1.
      destruct (repoData (state s0)); auto. }
    destruct (findAllFileRows (page s1)) as [rows pg].
    destruct (findAllFolderRows pg) as [folders pg'].
    match goal with
    | |- context [withPage s1 ?p] => set (s2 := withPage s1 p)
    end.
    assert (Hkeep : cacheKept srv s0 (updateFolders rows folders s2)).
    { apply cacheKept_after; [apply updateFolders_shape|].
      unfold cacheAfter. rewrite updateFolders_cache.
      change (repoData (state s2)) with (repoData (state s1)). rewrite Hrd1.
      destruct (repoData (state s0)); auto. }
    destruct (bool_decide (is_Some (repoData (state s2)))) eqn:Hd;
      rewrite ?andb_false_r; cbn [negb andb]; [exact Hkeep|].
    destruct (0 <? length folders)%nat; cbn [andb]; [|exact Hkeep].
    change (location s2) with (location s). rewrite Hloc.
    destruct (getRepoInfoFromUrl (location s0)) as [i|] eqn:Hi;
      [|exact Hkeep].
    cbn [cacheKept].
    apply bool_decide_eq_false in Hd.
    change (repoData (state s2)) with (repoData (state s1)) in *.
    destruct (repoData (state s1)) eqn:Hs1; [exfalso; apply Hd; eauto|].
    repeat split; [congruence|]. now exists i.
  - intros (Hrd & Hrd0 & i & Hi & ->). unfold after_repo.
    apply cacheKept_after; [apply updateFolders_shape|].
    unfold cacheAfter. rewrite updateFolders_cache, Hrd0.
    destruct (api_check_repo srv (repoRequest i)) as [d|] eqn:Hd.
    + right. exists i, d. now repeat split.
    + left. exact Hrd.
  - intros H. unfold after_batch.
    assert (E : repoData (state (outcomeSys
                  (finishFiles (checkFilesResult (api_check_batch srv fls))
                     rows s))) = repoData (state s))
      by apply finishFiles_cache.
    destruct (finishFiles _ rows s) as [k' s'|c s'] eqn:Ef.
    + now destruct (checkFilesResult _).
    + cbn in E |- *. unfold cacheAfter in *. rewrite E. exact H.
Qed.

Lemma drive_cacheKept srv s0 n o :
  cacheKept srv s0 o -> cacheKept srv s0 (drive n srv o).
Proof.
  revert o. induction n as [|n IH]; intros o Ho.
  - destruct o; exact Ho.
  - destruct o as [k s|c s]; [|exact Ho].
    cbn [drive]. apply IH. now apply resume_cacheKept.
Qed.

Lemma pass_cache_facts (srv : Server) (s s' : Sys) (c : Completion) :
  scanCurrentPage srv s = Finish c s' ->
  (forall rd, repoData (state s) = Some rd -> repoData (state s') = Some rd) /\
  (repoData (state s) = None ->
   repoData (state s') = None \/
   exists i d, getRepoInfoFromUrl (location s) = Some i /\
               api_check_repo srv (repoRequest i) = Resolved d /\
               repoData (state s') = Some d).
Proof.
  intros E.
  assert (H : cacheKept srv s (scanCurrentPage srv s)).
  { unfold scanCurrentPage. apply drive_cacheKept. unfold scan_call.
    destruct (isScanning s).
    - cbn. unfold cacheAfter. destruct (repoData (state s)); auto.
    - cbn. now split. }
  rewrite E in H. cbn in H. unfold cacheAfter in H.
  destruct (repoData (state s)) as [rd|].
  - split; [now intros ? [= <-] | discriminate].
  - split; [discriminate | auto].
Qed.

(** X16. A pass never replaces a cached manifest: one that is cached when
    the pass is called is still cached when it ends, whatever repository
    the location now names; an empty cache stays empty or receives what the
    service returned for the repository of the current location. *)
Theorem pass_keeps_cache (srv : Server) (s s' : Sys) (c : Completion) :
  scanCurrentPage srv s = Finish c s' ->
  (forall rd, repoData (state s) = Some rd -> repoData (state s') = Some rd) /\
  (repoData (state s) = None ->
   repoData (state s') = None \/
   exists i d, getRepoInfoFromUrl (location s) = Some i /\
               api_check_repo srv (repoRequest i) = Resolved d /\
               repoData (state s') = Some d).
Proof. apply pass_cache_facts. Qed.

Lemma pass_keeps_cache_witness :
  exists s', scanCurrentPage serverRepoB staleSys = Finish Returned s' /\
             repoData (state s') = Some repoAData.
Proof.
  destruct (scanCurrentPage serverRepoB staleSys) as [k s'|[] s'] eqn:E;
    try (exfalso; vm_compute in E; discriminate E).
  exists s'. split; [reflexivity|].
  apply (proj1 (pass_keeps_cache serverRepoB staleSys s' Returned E)).
  reflexivity.
Defined.

(** ** The full-repository scan *)

Lemma no_folder_rows_any (f : Elem -> Elem) (P0 : list Elem) (k : nat) :
  (forall e, el_link (f e) = el_link e /\ hfcFolderProcessed (f e) = false) ->
  folderRowsFrom k (map f P0) = [] ->
  forall e, In e P0 -> isBlob e = true.
Proof.
  intros Hf. revert k. induction P0 as [|e P0 IH]; intros k H x Hx;
    [contradiction|].
  cbn [map folderRowsFrom] in H. destruct (Hf e) as [Hl Hp].
  rewrite Hl, Hp in H. unfold isBlob.
  destruct (el_link e) as [fn fpath|nm pth] eqn:El.
  - destruct Hx as [<-|Hx]; [now rewrite El|]. now apply (IH (S k)).
  - discriminate.
Qed.

Lemma redrawn_page (allFiles : list ManifestEntry) (P0 pg : list Elem) :
  classifyFolders allFiles
    (folderRowsFrom 0 (map (setFolderProcessed false) P0))
    (map flagFolderRow (map (setFolderProcessed false) P0)) = (Returned, pg) ->
  pg = map (folderRedrawn allFiles) P0 /\
  (forall e name path, In e P0 -> el_link e = TreeLink name path ->
                       calculateFolderStatus path allFiles <> None).
Proof.
  intros H. apply classifyFolders_updates in H. destruct H as [-> Hok].
  assert (Hfine : forall e name path,
             In e P0 -> el_link e = TreeLink name path ->
             calculateFolderStatus path allFiles <> None).
  { intros e nm pth Hin Hl.
    destruct (folderRowsFrom 0 (map (setFolderProcessed false) P0))
      as [|f0 fl] eqn:Ef.
    - pose proof (no_folder_rows_any (setFolderProcessed false) P0 0
                    ltac:(intros x; split; reflexivity) Ef _ Hin) as Hb.
      unfold isBlob in Hb. rewrite Hl in Hb. discriminate Hb.
    - apply Hok. discriminate. }
  split; [|exact Hfine].
  rewrite folderRows_updates, !List.map_map, applyUpdates_map.
  apply List.map_ext_in. intros [lnk p fp ic] Hin.
  destruct lnk as [fn fpath|nm pth]; [reflexivity|].
  cbn. unfold folderRedrawn, statusOr. cbn.
  specialize (Hfine _ nm pth Hin eq_refl).
  now destruct (calculateFolderStatus pth allFiles).
Qed.

Lemma updateFolderIcons_frame (s : Sys) :
  state (snd (updateFolderIcons s)) = state s /\
  isScanning (snd (updateFolderIcons s)) = isScanning s /\
  location (snd (updateFolderIcons s)) = location s /\
  forall i e, page s !! i = Some e -> isBlob e = true ->
              page (snd (updateFolderIcons s)) !! i
                = Some (setFolderProcessed false e).
Proof.
  unfold updateFolderIcons, findAllFolderRows.
  destruct (repoFiles (state s)) as [allFiles|].
  - destruct (classifyFolders allFiles _ _) as [c pg] eqn:Hc.
    cbn [snd state isScanning location page withPage]. repeat split.
    intros i e He Hb. destruct c.
    + apply redrawn_page in Hc. destruct Hc as [-> _].
      rewrite list_lookup_fmap, He. cbn. f_equal.
      unfold folderRedrawn. unfold isBlob in Hb.
      now destruct (el_link e).
    + apply classify_threw in Hc. subst pg.
      rewrite !list_lookup_fmap, He. cbn. f_equal.
      unfold flagFolderRow. cbn. unfold isBlob in Hb.
      now destruct (el_link e).
  - cbn [snd state isScanning location page withPage]. repeat split.
    intros i e He Hb. rewrite !list_lookup_fmap, He. cbn. f_equal.
    unfold flagFolderRow. cbn. unfold isBlob in Hb. now destruct (el_link e).
Qed.



(** X18. When the full-repository scan gets its manifest, the manifest is
    cached at once, even if drawing the folders then raises and the user is
    shown an error. When the scan reaches its presentation, every folder
    row shows what the aggregator computes for its path from the new
    manifest; a manifest without a file list leaves the folder icons as
    they were. *)
Theorem full_scan_redraws (srv : Server) (s : Sys) :
  (forall i d, connected (state s) = true ->
               getRepoInfoFromUrl (location s) = Some i ->
               api_check_repo srv (repoRequest i) = Resolved d ->
               repoData (state (snd (scanFullRepo srv s))) = Some d) /\
  (forall d, fst (scanFullRepo srv s) = Presented d ->
     repoData (state (snd (scanFullRepo srv s))) = Some d /\
     forall j name path,
       linkAt (page s) j = Some (TreeLink name path) ->
       (forall allFiles, files d = Some allFiles ->
          exists fs, calculateFolderStatus path allFiles = Some fs /\
                     iconAt (page (snd (scanFullRepo srv s))) j
                       = Some (fs_status fs)) /\
       (files d = None ->
        iconAt (page (snd (scanFullRepo srv s))) j = iconAt (page s) j)).
Proof.
  unfold scanFullRepo. split.
  - intros i d Hc Hi Hd. rewrite Hc, Hi, Hd. cbn [negb].
    set (s1 := withState s (setRepoData (state s) (Some d))).
    destruct (updateFolderIcons_frame s1) as (Hst & _).
    destruct (updateFolderIcons s1) as [[] s2]; cbn [snd] in *;
      now rewrite Hst.
  - intros d.
    destruct (connected (state s)); cbn [negb]; [|discriminate].
    destruct (getRepoInfoFromUrl (location s)) as [i|]; [|discriminate].
    destruct (api_check_repo srv (repoRequest i)) as [d'|]; [|discriminate].
    set (s1 := withState s (setRepoData (state s) (Some d'))).
    destruct (updateFolderIcons_frame s1) as (Hst & _).
    unfold updateFolderIcons, findAllFolderRows in *.
    change (repoFiles (state s1)) with (files d') in *.
    change (page s1) with (page s) in *.
    destruct (files d') as [allFiles|] eqn:Hf.
    + destruct (classifyFolders allFiles _ _) as [[] pg] eqn:Hc;
        cbn [fst snd] in *; [|discriminate].
      intros [= <-]. split; [now rewrite Hst|].
      intros j nm pth Hl. apply redrawn_page in Hc.
      destruct Hc as [-> Hfine].
      destruct (linkAt_Some _ _ _ Hl) as (e & He & Hlink).
      assert (Hin : In e (page s)).
      { apply list_elem_of_In. eapply list_elem_of_lookup_2. exact He. }
      split; [|rewrite Hf; discriminate].
      rewrite Hf. intros fl [= <-]. specialize (Hfine e nm pth Hin Hlink).
      destruct (calculateFolderStatus pth allFiles) as [fs|] eqn:Ec;
        [|contradiction].
      exists fs. split; [reflexivity|].
      cbn [page withPage]. rewrite (iconAt_map _ _ _ _ He).
      unfold folderRedrawn. rewrite Hlink. cbn. now rewrite Ec.
    + cbn [fst snd] in *. intros [= <-]. split; [now rewrite Hst|].
      intros j nm pth Hl. split; [rewrite Hf; discriminate|]. intros _.
      cbn [page withPage]. unfold iconAt.
      rewrite !list_lookup_fmap. destruct (page s !! j) as [e|]; [|reflexivity].
      cbn. unfold flagFolderRow. cbn. now destruct (el_link e).
Qed.

Lemma full_scan_redraws_witness :
  repoData (state (snd (scanFullRepo serverRepoB staleSys))) = Some repoBData /\
  iconAt (page (snd (scanFullRepo serverRepoB staleSys))) 0 = Some VMissing.
Proof.
  split.
  - apply (proj1 (full_scan_redraws serverRepoB staleSys)
             {| repoId := "ownerB/repoB"; repoType := "model";
                revision := "main" |} repoBData); reflexivity.
  - destruct (proj2 (proj2 (full_scan_redraws serverRepoB staleSys)
                              repoBData eq_refl) 0 "unet" "unet" eq_refl)
      as [H _].
    destruct (H _ eq_refl) as (fs & Hfs & Hicon).
    rewrite Hicon. f_equal.
    assert (Ev : Some fs = Some {| fs_status := VMissing; fs_found := 0;
                                   fs_missing := 1; fs_mismatch := 0;
                                   fs_total := 1 |})
      by (rewrite <- Hfs; reflexivity).
    now injection Ev as ->.
Defined.

(** ** The local-inventory rescan *)

Lemma pass_flag_same (srv : Server) (s : Sys) :
  isScanning (outcomeSys (scanCurrentPage srv s)) = isScanning s.
Proof.
  destruct (isScanning s) eqn:E.
  - unfold scanCurrentPage, scan_call. rewrite E. exact E.
  - assert (H : flagRule true (scanCurrentPage srv s)).
    { unfold scanCurrentPage. apply drive_flag. unfold scan_call.
      now rewrite E. }
    destruct (scanCurrentPage_finishes srv s) as (c & s' & Ef).
    rewrite Ef in *. exact H.
Qed.



(** ** Fetching the manifest on load *)

Lemma sameRepo_after_fetch (i : RepoInfo) (d : RepoData) :
  repo_id d = rq_repo_id (repoRequest i) -> sameRepo (Some d) i = true.
Proof. cbn. intros ->. apply String.eqb_refl. Qed.

(** X20. Against a service that answers with the manifest of the
    repository asked for, fetching the manifest twice is fetching it once:
    after a successful fetch the cache is for the repository of the
    location and the second call skips the request; after a failed one the
    state is untouched, the cached manifest of another repository
    included. *)
Theorem autoFetch_idempotent (srv : Server) (s : Sys) :
  answersAsAsked srv ->
  autoFetchRepoData srv (autoFetchRepoData srv s) = autoFetchRepoData srv s /\
  (forall i, getRepoInfoFromUrl (location s) = Some i ->
             api_check_repo srv (repoRequest i) = Rejected ->
             autoFetchRepoData srv s = s) /\
  (forall i d, connected (state s) = true ->
               getRepoInfoFromUrl (location s) = Some i ->
               sameRepo (repoData (state s)) i = false ->
               api_check_repo srv (repoRequest i) = Resolved d ->
               repoData (state (autoFetchRepoData srv s)) = Some d /\
               sameRepo (Some d) i = true /\
               stats (state (autoFetchRepoData srv s))
                 = {| matches := rd_found d; mismatches := rd_mismatch d;
                      missing := rd_missing d; total := total_files d |}).
Proof.
  intros Hsrv. split; [|split].
  - unfold autoFetchRepoData at 2 3.
    destruct (connected (state s)) eqn:Hc; cbn [negb].
    2:{ unfold autoFetchRepoData. now rewrite Hc. }
    destruct (getRepoInfoFromUrl (location s)) as [i|] eqn:Hi.
    2:{ unfold autoFetchRepoData. now rewrite Hc, Hi. }
    destruct (sameRepo (repoData (state s)) i) eqn:Hs.
    { unfold autoFetchRepoData. now rewrite Hc, Hi, Hs. }
    destruct (api_check_repo srv (repoRequest i)) as [d|] eqn:Hd.
    + unfold autoFetchRepoData.
      cbn [state withState connected setStats setRepoData location repoData].
      rewrite Hc, Hi. cbn [negb].
      now rewrite (sameRepo_after_fetch i d (Hsrv _ _ Hd)).
    + unfold autoFetchRepoData. now rewrite Hc, Hi, Hs, Hd.
  - intros i Hi Hd. unfold autoFetchRepoData. rewrite Hi, Hd.
    destruct (negb _); [reflexivity|]. now destruct (sameRepo _ i).
  - intros i d Hc Hi Hs Hd. unfold autoFetchRepoData.
    rewrite Hc, Hi, Hs, Hd. cbn. repeat split.
    apply (sameRepo_after_fetch i d (Hsrv _ _ Hd)).
Qed.

Lemma serverHonest_answers : answersAsAsked serverHonest.
Proof.
  intros req d. cbn.
  destruct (String.eqb_spec (rq_repo_id req) "ownerB/repoB") as [E|E];
    [|discriminate].
  intros [= <-]. now rewrite E.
Qed.

Lemma autoFetch_idempotent_witness :
  autoFetchRepoData serverHonest (autoFetchRepoData serverHonest staleSys)
    = autoFetchRepoData serverHonest staleSys /\
  repoData (state (autoFetchRepoData serverHonest staleSys)) = Some repoBData.
Proof.
  split.
  - apply (proj1 (autoFetch_idempotent serverHonest staleSys
                    serverHonest_answers)).
  - apply (proj2 (proj2 (autoFetch_idempotent serverHonest staleSys
                           serverHonest_answers))
             {| repoId := "ownerB/repoB"; repoType := "model";
                revision := "main" |} repoBData); reflexivity.
Defined.

Lemma context_is_file_browser (loc : Location) (i : RepoInfo) :
  getRepoInfoFromUrl loc = Some i -> isFileBrowser loc = true.
Proof.
  unfold getRepoInfoFromUrl, isFileBrowser.
  set (parts := List.filter Js.nonEmpty (Js.split "/" (pathname loc))).
  assert (G : forall (k : nat) (x : option RepoInfo),
             (if (length parts <? k + 2)%nat then None else x) = Some i ->
             (2 <=? length parts)%nat = true).
  { intros k x. destruct (Nat.ltb_spec (length parts) (k + 2)); [discriminate|].
    intros _. apply Nat.leb_le. lia. }
  intros H. apply orb_true_iff. right.
  destruct (Js.seq (parts !! 0) (Some "datasets")).
  - exact (G 1 _ H).
  - destruct (Js.seq (parts !! 0) (Some "spaces")).
    + exact (G 1 _ H).
    + exact (G 0 _ H).
Qed.

Lemma autoFetch_cache (srv : Server) (s : Sys) :
  repoData (state s) = None ->
  repoData (state (autoFetchRepoData srv s)) = None \/
  exists i d, getRepoInfoFromUrl (location s) = Some i /\
              api_check_repo srv (repoRequest i) = Resolved d /\
              repoData (state (autoFetchRepoData srv s)) = Some d.
Proof.
  intros Hn. unfold autoFetchRepoData.
  destruct (negb (connected (state s))); [now left|].
  destruct (getRepoInfoFromUrl (location s)) as [i|]; [|now left].
  rewrite Hn. cbn [sameRepo].
  destruct (api_check_repo srv (repoRequest i)) as [d|] eqn:Hd;
    [|now left].
  right. exists i, d. now repeat split.
Qed.

(** X21. On load the script goes to work wherever the location resolves to
    a repository, and the manifest its first pass works with, if any, is
    the one the service returned for the repository of that location: from
    a freshly loaded script, whose delayed callback runs before any other
    and on the same location, no folder is classified with the manifest of
    another page. *)
Theorem init_uses_own_manifest (probe : ApiOutcome ServerInfo) (srv : Server)
  (pg : list Elem) (loc : Location) :
  (forall i, getRepoInfoFromUrl loc = Some i -> isFileBrowser loc = true) /\
  (isFileBrowser loc = false ->
   init probe srv (loaded pg loc) = Finish Returned (loaded pg loc)) /\
  (forall c s', init probe srv (loaded pg loc) = Finish c s' ->
     isScanning s' = false /\
     (repoData (state s') = None \/
      exists i d, getRepoInfoFromUrl loc = Some i /\
                  api_check_repo srv (repoRequest i) = Resolved d /\
                  repoData (state s') = Some d)).
Proof.
  split; [intros i; apply context_is_file_browser|]. split.
  - intros H. unfold init. cbn [location loaded]. now rewrite H.
  - intros c s'. unfold init. cbn [location loaded].
    destruct (isFileBrowser loc); cbn [negb];
      [|intros [= <- <-]; split; [reflexivity | now left]].
    set (s1 := withState _ _).
    destruct (connected (state s1)) eqn:Hc;
      [|intros [= <- <-]; split; [reflexivity|]; left;
        subst s1; now destruct probe].
    intros E.
    assert (Hn : repoData (state s1) = None)
      by (subst s1; now destruct probe).
    destruct (autoFetchRepoData_frame srv s1) as (_ & Hflag & Hloc).
    split.
    + pose proof (pass_flag_same srv (autoFetchRepoData srv s1)) as Hf.
      rewrite E, Hflag in Hf. exact Hf.
    + destruct (pass_cache_facts srv _ s' c E) as [Hkeep Hfill].
      rewrite Hloc in Hfill. change (location s1) with loc in *.
      destruct (autoFetch_cache srv s1 Hn) as [Ha|(i & d & Hi & Hd & Ha)].
      * exact (Hfill Ha).
      * right. exists i, d. repeat split; auto.
Qed.

Lemma init_uses_own_manifest_witness :
  isFileBrowser repoBLocation = true /\
  exists s', init (api_status serverHonest) serverHonest
               (loaded [treeElem "unet" "unet"] repoBLocation)
             = Finish Returned s' /\
             repoData (state s') = Some repoBData.
Proof.
  split.
  - apply (proj1 (init_uses_own_manifest (api_status serverHonest)
                    serverHonest [] repoBLocation)
             {| repoId := "ownerB/repoB"; repoType := "model";
                revision := "main" |}).
    reflexivity.
  - eexists. split; reflexivity.
Defined.

(** ** The observer after a navigation *)

Lemma tickNavigation_cache (srv : Server) (s : Sys) (i : RepoInfo)
  (rd : RepoData) :
  connected (state s) = true ->
  Js.seq (Some (href (location s))) (lastUrl (state s)) = false ->
  getRepoInfoFromUrl (location s) = Some i ->
  repoData (state s) = Some rd ->
  repo_id rd <> repoId i ->
  (api_check_repo srv (repoRequest i) = Rejected /\
   repoData (state (tickNavigation srv s)) = None) \/
  (exists d, api_check_repo srv (repoRequest i) = Resolved d /\
             repoData (state (tickNavigation srv s)) = Some d).
Proof.
  intros Hc Hu Hi Hrd Hne.
  rewrite (tick_invalidates_stale_manifest srv s i rd Hc Hu Hi Hrd Hne).
  destruct (api_check_repo srv (repoRequest i)) as [d|]; [right | left]; eauto.
Qed.

(** X22. When the observer's callback sees that the location has moved to
    another repository than the cached manifest's, whatever follows in that
    callback works without the old manifest: once the callback and the pass
    it may start are over, the cache is empty or holds what the service
    returned for the new repository. *)
Theorem observer_drops_stale_manifest (srv : Server) (s s' : Sys)
  (i : RepoInfo) (rd : RepoData) (c : Completion) :
  connected (state s) = true -> isScanning s = false ->
  Js.seq (Some (href (location s))) (lastUrl (state s)) = false ->
  getRepoInfoFromUrl (location s) = Some i ->
  repoData (state s) = Some rd ->
  repo_id rd <> repoId i ->
  mutationPass srv s = Finish c s' ->
  repoData (state s') = None \/
  exists d, api_check_repo srv (repoRequest i) = Resolved d /\
            repoData (state s') = Some d.
Proof.
  intros Hc Hidle Hu Hi Hrd Hne. unfold mutationPass, mutationTick.
  rewrite Hc, Hidle. cbn [andb negb].
  destruct (tickNavigation_frame srv s) as (Hpg & Hflag & Hloc).
  pose proof (tickNavigation_cache srv s i rd Hc Hu Hi Hrd Hne) as Hcache.
  set (s1 := tickNavigation srv s) in *.
  cbn [findAllFileRows].
  set (s2 := withPage s1 _).
  change (repoData (state s1)) with (repoData (state s2)) in Hcache.
  destruct (0 <? length _)%nat.
  - intros E. destruct (pass_cache_facts srv s2 s' c E) as [Hkeep Hfill].
    change (location s2) with (location s1) in Hfill.
    rewrite Hloc, Hi in Hfill.
    destruct Hcache as [[Hrej Hn]|(d & Hd & Hs)].
    + destruct (Hfill Hn) as [H|(i' & d & [= <-] & Hd & H)]; [now left|].
      right. now exists d.
    + right. exists d. split; [exact Hd | now apply Hkeep].
  - intros [= <- <-].
    destruct Hcache as [[_ Hn]|(d & Hd & Hs)]; [now left|].
    right. now exists d.
Qed.

Lemma observer_drops_stale_manifest_witness :
  exists s', mutationPass serverRepoB
               (withPage staleSys
                  [treeElem "unet" "unet"; blobElem "a.bin" "a.bin" false None])
             = Finish Returned s' /\
             repoData (state s') = Some repoBData.
Proof.
  destruct (mutationPass serverRepoB
              (withPage staleSys
                 [treeElem "unet" "unet"; blobElem "a.bin" "a.bin" false None]))
    as [k s'|[] s'] eqn:E;
    try (exfalso; vm_compute in E; discriminate E).
  exists s'. split; [reflexivity|].
  destruct (observer_drops_stale_manifest serverRepoB
              (withPage staleSys
                 [treeElem "unet" "unet"; blobElem "a.bin" "a.bin" false None])
              s'
              {| repoId := "ownerB/repoB"; repoType := "model";
                 revision := "main" |} repoAData Returned
              eq_refl eq_refl eq_refl eq_refl eq_refl
              ltac:(discriminate) E)
    as [H|(d & Hd & H)].
  - exfalso.
    assert (X : repoData (state (outcomeSys
                  (mutationPass serverRepoB
                     (withPage staleSys
                        [treeElem "unet" "unet";
                         blobElem "a.bin" "a.bin" false None]))))
                <> None) by (vm_compute; discriminate).
    rewrite E in X. now apply X.
  - rewrite H. cbn in Hd. congruence.
Defined.
